(** * ChimeKit/react: URL safety validator, HTML sanitizer, API response validator

    A shallow embedding of [src/utils/safeUrl.ts], [src/utils/sanitizeHtml.ts]
    and [src/utils/validateApiResponse.ts].

    Strings are sequences of code units below 256 (the Latin-1 range of a
    JavaScript string).  The host platform (the [URL] constructor, [window],
    [DOMParser], [innerHTML]) is a record of capabilities, [Host]; what the
    URL Standard fixes about the scheme of a parsed URL is written out, the
    rest of the host parser is a field of the record. *)

From Stdlib Require Import Ascii String List Bool NArith Lia Sorted.
From stdpp Require Import gmap strings list fin_maps.
Import ListNotations.

Local Open Scope bool_scope.
Set Warnings "-register-all".

(** ** JavaScript string primitives *)

Module JS.

Definition code (c : ascii) : N := N_of_ascii c.

Definition between (lo hi : N) (c : ascii) : bool :=
  ((lo <=? code c) && (code c <=? hi))%N.

Definition isAsciiUpper (c : ascii) : bool := between 65 90 c.
Definition isAsciiLower (c : ascii) : bool := between 97 122 c.
Definition isAsciiAlpha (c : ascii) : bool := isAsciiUpper c || isAsciiLower c.
Definition isAsciiDigit (c : ascii) : bool := between 48 57 c.
Definition isAsciiAlphanumeric (c : ascii) : bool :=
  isAsciiAlpha c || isAsciiDigit c.

(** The DOM's "ASCII lowercase": only A-Z change. *)
Definition asciiLowerChar (c : ascii) : ascii :=
  if isAsciiUpper c then ascii_of_N (code c + 32) else c.

Definition asciiUpperChar (c : ascii) : ascii :=
  if isAsciiLower c then ascii_of_N (code c - 32) else c.

(** [String.prototype.toLowerCase] on one code unit below 256: A-Z and the
    Latin-1 capitals U+00C0..U+00DE (without the multiplication sign). *)
Definition toLowerChar (c : ascii) : ascii :=
  if isAsciiUpper c || (between 192 222 c && negb (code c =? 215)%N)
  then ascii_of_N (code c + 32) else c.

Fixpoint mapStr (f : ascii -> ascii) (s : string) : string :=
  match s with
  | EmptyString => EmptyString
  | String c r => String (f c) (mapStr f r)
  end.

Definition toLowerCase : string -> string := mapStr toLowerChar.
Definition asciiLowercase : string -> string := mapStr asciiLowerChar.
Definition asciiUppercase : string -> string := mapStr asciiUpperChar.

(** [s.startsWith(p)] *)
Fixpoint startsWith (p s : string) : bool :=
  match p, s with
  | EmptyString, _ => true
  | String a p', String b s' => Ascii.eqb a b && startsWith p' s'
  | String _ _, EmptyString => false
  end.

(** [s.includes(p)] *)
Fixpoint includes (p s : string) : bool :=
  startsWith p s ||
  match s with
  | EmptyString => false
  | String _ r => includes p r
  end.

(** White space and line terminators of ECMAScript, below 256: the set
    matched by [\s] and stripped by [trim]. *)
Definition isWhiteSpace (c : ascii) : bool :=
  between 9 13 c || (code c =? 32)%N || (code c =? 160)%N.

Fixpoint trimStart (s : string) : string :=
  match s with
  | EmptyString => EmptyString
  | String c r => if isWhiteSpace c then trimStart r else s
  end.

Fixpoint trimEnd (s : string) : string :=
  match s with
  | EmptyString => EmptyString
  | String c r =>
      match trimEnd r with
      | EmptyString => if isWhiteSpace c then EmptyString else String c EmptyString
      | r' => String c r'
      end
  end.

Definition trim (s : string) : string := trimEnd (trimStart s).

(** [s.split(/\s+/)]: the pieces between maximal runs of white space; a run
    at either end leaves an empty piece there, and the empty string splits
    into one empty piece. *)
Fixpoint splitWs (cur : string) (inRun : bool) (s : string) : list string :=
  match s with
  | EmptyString => [cur]
  | String c r =>
      if isWhiteSpace c
      then (if inRun then splitWs EmptyString true r
            else cur :: splitWs EmptyString true r)
      else splitWs (cur +:+ String c EmptyString) false r
  end.

Definition split_whitespace (s : string) : list string :=
  splitWs EmptyString false s.

(** [xs.join(sep)] *)
Fixpoint join (sep : string) (xs : list string) : string :=
  match xs with
  | [] => EmptyString
  | [x] => x
  | x :: rest => x +:+ sep +:+ join sep rest
  end.

(** Membership in a [Set] of strings: [set.has(x)]. *)
Definition has (set : list string) (x : string) : bool :=
  existsb (String.eqb x) set.

End JS.

(** ** The document tree *)

Module Dom.

(** A node of the parsed document: character data, a comment, or an
    element with its local name, its attribute list in source order and its
    child nodes. *)
Inductive node : Type :=
| Text (data : string)
| Comment (data : string)
| Element (localName : string) (attributes : list (string * string))
          (childNodes : list node).

(** [element.tagName] of an HTML element in an HTML document. *)
Definition tagName (localName : string) : string := JS.asciiUppercase localName.

(** [node.textContent]: the data of the text descendants in tree order. *)
Fixpoint textContent (n : node) : string :=
  match n with
  | Text d => d
  | Comment _ => EmptyString
  | Element _ _ kids =>
      (fix go (l : list node) : string :=
         match l with
         | [] => EmptyString
         | k :: r => textContent k +:+ go r
         end) kids
  end.

(** [element.getAttribute(qualifiedName)]: the argument is ASCII-lowercased
    and the first attribute of that name answers. *)
Fixpoint findAttr (name : string) (attrs : list (string * string)) : option string :=
  match attrs with
  | [] => None
  | (n, v) :: r => if String.eqb n name then Some v else findAttr name r
  end.

Definition getAttribute (attrs : list (string * string)) (qualifiedName : string)
  : option string :=
  findAttr (JS.asciiLowercase qualifiedName) attrs.

(** [element.removeAttribute(qualifiedName)]: the argument is
    ASCII-lowercased and the first attribute of that name is removed. *)
Fixpoint dropAttr (name : string) (attrs : list (string * string))
  : list (string * string) :=
  match attrs with
  | [] => []
  | (n, v) :: r => if String.eqb n name then r else (n, v) :: dropAttr name r
  end.

Definition removeAttribute (attrs : list (string * string)) (qualifiedName : string)
  : list (string * string) :=
  dropAttr (JS.asciiLowercase qualifiedName) attrs.

(** [element.setAttribute(qualifiedName, value)]: the first attribute of
    that name takes the value, or a new attribute is appended. *)
Fixpoint putAttr (name value : string) (attrs : list (string * string))
  : list (string * string) :=
  match attrs with
  | [] => [(name, value)]
  | (n, v) :: r =>
      if String.eqb n name then (n, value) :: r else (n, v) :: putAttr name value r
  end.

Definition setAttribute (attrs : list (string * string)) (qualifiedName value : string)
  : list (string * string) :=
  putAttr (JS.asciiLowercase qualifiedName) value attrs.

End Dom.

(** ** The host platform *)

(** What the code asks of its environment.  [window_location] is
    [window.location.href] when [window] and [window.location] exist;
    [url_accepts value base] tells whether [new URL(value, base)] returns
    rather than throws; [dom_parser] is present when both [DOMParser] and
    [document] are defined, and then gives the child nodes of the body of
    [parseFromString(input, "text/html")] and the serialisation [innerHTML]
    of a list of child nodes. *)
Record DomImpl : Type := {
  parseBody : string -> list Dom.node;
  innerHTML : list Dom.node -> string
}.

Record Host : Type := {
  window_location : option string;
  url_accepts : string -> string -> bool;
  dom_parser : option DomImpl
}.

(** The scheme of a parsed URL, after the URL Standard's basic URL parser
    (scheme start state, scheme state, no scheme state). *)
Module Url.

Definition isC0ControlOrSpace (c : ascii) : bool := (JS.code c <=? 32)%N.
Definition isTabOrNewline (c : ascii) : bool :=
  (JS.code c =? 9)%N || (JS.code c =? 10)%N || (JS.code c =? 13)%N.

Fixpoint stripLeading (s : string) : string :=
  match s with
  | EmptyString => EmptyString
  | String c r => if isC0ControlOrSpace c then stripLeading r else s
  end.

Fixpoint stripTrailing (s : string) : string :=
  match s with
  | EmptyString => EmptyString
  | String c r =>
      match stripTrailing r with
      | EmptyString =>
          if isC0ControlOrSpace c then EmptyString else String c EmptyString
      | r' => String c r'
      end
  end.

Fixpoint removeTabNewline (s : string) : string :=
  match s with
  | EmptyString => EmptyString
  | String c r =>
      if isTabOrNewline c then removeTabNewline r else String c (removeTabNewline r)
  end.

(** The input as the state machine sees it. *)
Definition clean (input : string) : string :=
  removeTabNewline (stripTrailing (stripLeading input)).

Definition isSchemeChar (c : ascii) : bool :=
  JS.isAsciiAlphanumeric c
  || Ascii.eqb c "+"%char || Ascii.eqb c "-"%char || Ascii.eqb c "."%char.

(** Scheme state: collect lower-cased scheme characters up to the colon;
    anything else, or the end of input, means there is no scheme. *)
Fixpoint schemeState (buffer : string) (s : string) : option (string * string) :=
  match s with
  | EmptyString => None
  | String c r =>
      if isSchemeChar c
      then schemeState (buffer +:+ String (JS.asciiLowerChar c) EmptyString) r
      else if Ascii.eqb c ":"%char then Some (buffer, r)
      else None
  end.

(** Scheme start state. The result is the scheme and the remaining input. *)
Definition scanScheme (s : string) : option (string * string) :=
  match s with
  | EmptyString => None
  | String c r =>
      if JS.isAsciiAlpha c
      then schemeState (String (JS.asciiLowerChar c) EmptyString) r
      else None
  end.

Definition specialSchemes : list string :=
  ["ftp"; "file"; "http"; "https"; "ws"; "wss"].

(** A URL has an opaque path when its scheme is not special and no slash
    follows the colon. *)
Definition hasOpaquePath (scheme rest : string) : bool :=
  negb (JS.has specialSchemes scheme) && negb (JS.startsWith "/" rest).

(** The scheme of [new URL(value, base)] when the parser does not fail in
    one of the three states above: the input's own scheme, or the base's
    (no scheme state; a base with an opaque path only takes a fragment). *)
Definition resolvedScheme (value base : string) : option string :=
  match scanScheme (clean base) with
  | None => None
  | Some (bscheme, brest) =>
      match scanScheme (clean value) with
      | Some (scheme, _) => Some scheme
      | None =>
          if hasOpaquePath bscheme brest && negb (JS.startsWith "#" (clean value))
          then None
          else Some bscheme
      end
  end.

(** [new URL(value, base).protocol], [None] when the constructor throws. *)
Definition protocol (h : Host) (value base : string) : option string :=
  if url_accepts h value base
  then option_map (fun scheme => scheme +:+ ":") (resolvedScheme value base)
  else None.

End Url.

(** ** src/utils/safeUrl.ts *)

Definition SAFE_PROTOCOLS : list string := ["http:"; "https:"; "mailto:"; "tel:"].
Definition FALLBACK_BASE : string := "http://localhost".

Definition normalizeSafeUrl (h : Host) (raw : string) : option string :=
  let value := JS.trim raw in
  if String.eqb value EmptyString then None
  else if JS.startsWith "#" value then Some value
  else
    let base :=
      match window_location h with
      | Some href => href
      | None => FALLBACK_BASE
      end in
    match Url.protocol h value base with
    | Some parsed_protocol =>
        if negb (JS.has SAFE_PROTOCOLS parsed_protocol) then None else Some value
    | None => None
    end.

Definition isSafeUrl (h : Host) (raw : string) : bool :=
  match normalizeSafeUrl h raw with
  | Some _ => true
  | None => false
  end.

(** ** src/utils/sanitizeHtml.ts *)

Definition ALLOWED_TAGS : list string :=
  [ (* Text formatting *)
    "p"; "br"; "span"; "div"; "b"; "strong"; "i"; "em"; "u"; "s"; "strike";
    "del"; "ins"; "sub"; "sup"; "small"; "mark"; "abbr"; "code"; "pre"; "kbd";
    "samp"; "var"; "cite"; "q"; "blockquote";
    (* Headings *)
    "h1"; "h2"; "h3"; "h4"; "h5"; "h6";
    (* Lists *)
    "ul"; "ol"; "li"; "dl"; "dt"; "dd";
    (* Tables *)
    "table"; "thead"; "tbody"; "tfoot"; "tr"; "th"; "td"; "caption";
    "colgroup"; "col";
    (* Links and images *)
    "a"; "img";
    (* Semantic elements *)
    "article"; "section"; "aside"; "header"; "footer"; "nav"; "main";
    "figure"; "figcaption"; "details"; "summary";
    (* Other safe elements *)
    "hr"; "wbr"; "time"; "address"; "ruby"; "rt"; "rp" ].

Definition ALLOWED_ATTRS : list (string * list string) :=
  [ ("*", [ "id"; "class"; "title"; "lang"; "dir"; "aria-label";
            "aria-labelledby"; "aria-describedby"; "aria-hidden"; "role";
            "tabindex"; "data-*" ]);
    ("a", [ "href"; "target"; "rel"; "download"; "hreflang"; "type" ]);
    ("img", [ "src"; "alt"; "width"; "height"; "loading"; "decoding" ]);
    ("td", [ "colspan"; "rowspan"; "headers" ]);
    ("th", [ "colspan"; "rowspan"; "headers"; "scope" ]);
    ("col", [ "span" ]);
    ("colgroup", [ "span" ]);
    ("ol", [ "start"; "reversed"; "type" ]);
    ("li", [ "value" ]);
    ("time", [ "datetime" ]);
    ("blockquote", [ "cite" ]);
    ("q", [ "cite" ]);
    ("abbr", [ "title" ]);
    ("details", [ "open" ]) ].

(** [ALLOWED_ATTRS[key]], [None] for [undefined]. *)
Fixpoint tableLookup (key : string) (table : list (string * list string))
  : option (list string) :=
  match table with
  | [] => None
  | (k, set) :: rest => if String.eqb k key then Some set else tableLookup key rest
  end.

Definition ESCAPE_LOOKUP (char : ascii) : option string :=
  if Ascii.eqb char "&"%char then Some "&amp;"
  else if Ascii.eqb char "<"%char then Some "&lt;"
  else if Ascii.eqb char ">"%char then Some "&gt;"
  else if Ascii.eqb char (ascii_of_N 34) then Some "&quot;"
  else if Ascii.eqb char "'"%char then Some "&#39;"
  else None.

(** Every character that has an entry in [ESCAPE_LOOKUP] is replaced by it
    (the global [replace] of [escapeHtml]). *)
Fixpoint escapeHtml (input : string) : string :=
  match input with
  | EmptyString => EmptyString
  | String char rest =>
      match ESCAPE_LOOKUP char with
      | Some entity => entity +:+ escapeHtml rest
      | None => String char (escapeHtml rest)
      end
  end.

Definition isAllowedAttr (tagName attrName : string) : bool :=
  let globalAttrs := tableLookup "*" ALLOWED_ATTRS in
  let tagAttrs := tableLookup tagName ALLOWED_ATTRS in
  if match globalAttrs with Some set => JS.has set attrName | None => false end
  then true
  else if JS.startsWith "data-" attrName then true
  else if match tagAttrs with Some set => JS.has set attrName | None => false end
  then true
  else false.

(** A [Set] keeps its members in insertion order, once each. *)
Definition setAdd (set : list string) (x : string) : list string :=
  if JS.has set x then set else set ++ [x].

Definition newSet (items : list string) : list string :=
  fold_left setAdd items [].

Definition nonEmpty (s : string) : bool := negb (String.eqb s EmptyString).

(** [rel.split(/\s+/).map((token) => token.trim()).filter(Boolean)] *)
Definition relTokensOf (rel : string) : list string :=
  List.filter nonEmpty (List.map JS.trim (JS.split_whitespace rel)).

Section Sanitizer.

Variable h : Host.

(** The loop over the snapshot [Array.from(child.attributes)]; [current]
    is the element's live attribute list. *)
Fixpoint sanitizeAttributes (tagName : string)
    (attrs current : list (string * string)) : list (string * string) :=
  match attrs with
  | [] => current
  | (attr_name, attr_value) :: rest =>
      let name := JS.toLowerCase attr_name in
      if JS.startsWith "on" name
      then sanitizeAttributes tagName rest (Dom.removeAttribute current attr_name)
      else if String.eqb name "style"
      then sanitizeAttributes tagName rest (Dom.removeAttribute current attr_name)
      else if negb (isAllowedAttr tagName name)
      then sanitizeAttributes tagName rest (Dom.removeAttribute current attr_name)
      else if (String.eqb name "href" || String.eqb name "src")
              && negb (isSafeUrl h attr_value)
      then sanitizeAttributes tagName rest (Dom.removeAttribute current attr_name)
      else sanitizeAttributes tagName rest current
  end.

(** "Add security attributes to external links". *)
Definition hardenLink (tagName : string) (current : list (string * string))
  : list (string * string) :=
  if String.eqb tagName "a" then
    match Dom.getAttribute current "target" with
    | Some target =>
        if nonEmpty target && String.eqb (JS.toLowerCase target) "_blank" then
          let rel :=
            match Dom.getAttribute current "rel" with
            | Some r => r
            | None => EmptyString
            end in
          let relTokens := newSet (relTokensOf rel) in
          let relTokens := setAdd relTokens "noopener" in
          let relTokens := setAdd relTokens "noreferrer" in
          Dom.setAttribute current "rel" (JS.join " " relTokens)
        else current
    | None => current
    end
  else current.

(** One turn of the loop over [element.children], with the recursive call
    on the child it keeps. Text and comment nodes are not in [children]. *)
Fixpoint sanitizeChild (child : Dom.node) : Dom.node :=
  match child with
  | Dom.Element localName attributes childNodes =>
      let tagName := JS.toLowerCase (Dom.tagName localName) in
      if negb (JS.has ALLOWED_TAGS tagName)
      then Dom.Text (Dom.textContent child)
      else
        Dom.Element localName
          (hardenLink tagName (sanitizeAttributes tagName attributes attributes))
          (List.map sanitizeChild childNodes)
  | other => other
  end.

(** [sanitizeElement(element, doc)], on the child nodes of [element]. *)
Definition sanitizeElement (childNodes : list Dom.node) : list Dom.node :=
  List.map sanitizeChild childNodes.


End Sanitizer.

(** ** src/utils/validateApiResponse.ts *)

(** JavaScript values as a JSON payload or an object literal holds them.
    Objects (and arrays, which are objects with index keys) live in a heap
    and are held by reference. *)
Module Value.

Definition loc : Type := positive.

Inductive value : Type :=
| VUndefined
| VNull
| VBoolean (b : bool)
| VNumber (n : Z)
| VString (s : string)
| VObject (l : loc).

#[global] Instance value_eq_dec : EqDecision value.
Proof. solve_decision. Defined.

Definition value_eqb (a b : value) : bool := bool_decide (a = b).

(** The own properties of each allocated object. *)
Abbreviation object := (gmap string value).
Abbreviation heap := (gmap loc (gmap string value)).

(** [typeof v] *)
Definition typeof (v : value) : string :=
  match v with
  | VUndefined => "undefined"
  | VNull => "object"
  | VBoolean _ => "boolean"
  | VNumber _ => "number"
  | VString _ => "string"
  | VObject _ => "object"
  end.

(** Truthiness, as [&&] and [if] test it. *)
Definition truthy (v : value) : bool :=
  match v with
  | VUndefined | VNull => false
  | VBoolean b => b
  | VNumber n => negb (n =? 0)%Z
  | VString s => negb (String.eqb s EmptyString)
  | VObject _ => true
  end.

Definition props (hp : heap) (l : loc) : object :=
  match hp !! l with
  | Some o => o
  | None => ∅
  end.

(** [obj.key] on a plain data object: the own property, or [undefined]. *)
Definition get (hp : heap) (v : value) (key : string) : value :=
  match v with
  | VObject l =>
      match props hp l !! key with
      | Some x => x
      | None => VUndefined
      end
  | _ => VUndefined
  end.

End Value.
Import Value.

Inductive ValidationResult : Type :=
| Valid (data : value)
| Invalid (error : string).

Definition isNonEmptyString (v : value) : bool :=
  String.eqb (typeof v) "string" &&
  match v with
  | VString s => (0 <? String.length s)%nat
  | _ => false
  end.

Definition isStringOrNull (v : value) : bool :=
  value_eqb v VNull || String.eqb (typeof v) "string".

Definition isValidActionType (v : value) : bool :=
  value_eqb v (VString "primary") || value_eqb v (VString "secondary").

Definition isValidTarget (v : value) : bool :=
  if value_eqb v VUndefined then true
  else if negb (String.eqb (typeof v) "string") then false
  else
    let validTargets := ["_self"; "_blank"; "_parent"; "_top"] in
    match v with
    | VString s => JS.has validTargets s || JS.startsWith "_" s
    | _ => false
    end.

Section Validator.

Variable h : Host.
Variable hp : heap.

Definition validateLinkAction (action : value) : bool :=
  if negb (String.eqb (typeof action) "object") || value_eqb action VNull
  then false
  else
    let obj := get hp action in
    if negb (value_eqb (obj "kind") (VString "link")) then false
    else if negb (isNonEmptyString (obj "label")) then false
    else if negb (isValidActionType (obj "type")) then false
    else if negb (isNonEmptyString (obj "href")) then false
    else if negb (match obj "href" with
                  | VString href => isSafeUrl h href
                  | _ => false
                  end) then false
    else if negb (isValidTarget (obj "target")) then false
    else if negb (value_eqb (obj "rel") VUndefined)
            && negb (String.eqb (typeof (obj "rel")) "string") then false
    else if negb (value_eqb (obj "id") VUndefined)
            && negb (String.eqb (typeof (obj "id")) "string") then false
    else true.

Definition validateCallbackAction (action : value) : bool :=
  if negb (String.eqb (typeof action) "object") || value_eqb action VNull
  then false
  else
    let obj := get hp action in
    if negb (value_eqb (obj "kind") (VString "callback")) then false
    else if negb (isNonEmptyString (obj "label")) then false
    else if negb (isValidActionType (obj "type")) then false
    else if negb (isNonEmptyString (obj "actionId")) then false
    else if negb (value_eqb (obj "id") VUndefined)
            && negb (String.eqb (typeof (obj "id")) "string") then false
    else true.

Definition validateAction (action : value) : bool :=
  if value_eqb action VUndefined then true
  else validateLinkAction action || validateCallbackAction action.

Definition validateMessageDetailsResponse (response : value) : ValidationResult :=
  if negb (String.eqb (typeof response) "object") || value_eqb response VNull
  then Invalid "Response must be an object"
  else
    let obj := get hp response in
    if negb (isNonEmptyString (obj "messageId"))
    then Invalid "messageId must be a non-empty string"
    else if negb (isStringOrNull (obj "title"))
    then Invalid "title must be a string or null"
    else if negb (isStringOrNull (obj "snippet"))
    then Invalid "snippet must be a string or null"
    else if negb (isNonEmptyString (obj "createdAt"))
    then Invalid "createdAt must be a non-empty string"
    else if negb (String.eqb (typeof (obj "bodyHtml")) "string")
    then Invalid "bodyHtml must be a string"
    else if negb (isStringOrNull (obj "category"))
    then Invalid "category must be a string or null"
    else if negb (value_eqb (obj "primaryAction") VUndefined)
            && negb (validateAction (obj "primaryAction"))
    then Invalid "primaryAction has invalid structure or unsafe URL"
    else if negb (value_eqb (obj "secondaryAction") VUndefined)
            && negb (validateAction (obj "secondaryAction"))
    then Invalid "secondaryAction has invalid structure or unsafe URL"
    else Valid response.

End Validator.

(** [{ ...response }]: a fresh object with the own properties of
    [response]; property values are copied as they are, so nested objects
    are shared. *)
Definition spread (hp : heap) (response : loc) : heap * loc :=
  let l := fresh (dom hp) in
  (<[l := props hp response]> hp, l).

(** [delete obj.key] *)
Definition deleteProp (hp : heap) (l : loc) (key : string) : heap :=
  <[l := delete key (props hp l)]> hp.

Definition sanitizeMessageDetailsResponse (h : Host) (hp : heap) (response : loc)
  : heap * loc :=
  let '(hp, sanitized) := spread hp response in
  let hp :=
    if truthy (get hp (VObject sanitized) "primaryAction")
       && negb (validateAction h hp (get hp (VObject sanitized) "primaryAction"))
    then deleteProp hp sanitized "primaryAction"
    else hp in
  let hp :=
    if truthy (get hp (VObject sanitized) "secondaryAction")
       && negb (validateAction h hp (get hp (VObject sanitized) "secondaryAction"))
    then deleteProp hp sanitized "secondaryAction"
    else hp in
  (hp, sanitized).

(** ** Reference definitions, written after the specification *)

(** The base a URL is resolved against in [normalizeSafeUrl]. *)
Definition documentBase (h : Host) : string :=
  match window_location h with
  | Some href => href
  | None => FALLBACK_BASE
  end.

Definition equalsIgnoreCase (a b : string) : bool :=
  String.eqb (JS.toLowerCase a) (JS.toLowerCase b).

(** "The resulting scheme must be one of an explicit allowlist [...]
    regardless of case". *)
Definition schemeOnAllowlist (scheme : string) : bool :=
  existsb (equalsIgnoreCase scheme) ["http:"; "https:"; "mailto:"; "tel:"].

(** The URL Safety Validator as section 4.1 of the specification words it. *)
Definition normalizeSafeUrl_reference (h : Host) (raw : string) : option string :=
  let trimmed := JS.trim raw in
  match trimmed with
  | EmptyString => None
  | String first _ =>
      if Ascii.eqb first "#"%char then Some trimmed
      else
        match Url.protocol h trimmed (documentBase h) with
        | None => None
        | Some scheme => if schemeOnAllowlist scheme then Some trimmed else None
        end
  end.








(** *** Trees as the HTML parser builds them *)

Fixpoint uniqueNames (names : list string) : bool :=
  match names with
  | [] => true
  | n :: r => negb (JS.has r n) && uniqueNames r
  end.



(** The element nodes of a subtree, in tree order. *)
Fixpoint elementsOf (n : Dom.node) : list Dom.node :=
  match n with
  | Dom.Element _ _ kids => n :: flat_map elementsOf kids
  | _ => []
  end.

(** *** The attribute rule of section 4.2 *)

Definition globalAllowlist : list string :=
  [ "id"; "class"; "title"; "lang"; "dir"; "aria-label"; "aria-labelledby";
    "aria-describedby"; "aria-hidden"; "role"; "tabindex"; "data-*" ].

Definition tagAllowlist (tagName : string) : list string :=
  match tableLookup tagName ALLOWED_ATTRS with
  | Some set => set
  | None => []
  end.

(** When the specification removes the attribute [name="value"] of an
    allowed element [tagName]. *)
Definition attributeRemoved (h : Host) (tagName name value : string) : bool :=
  let lower := JS.toLowerCase name in
  JS.startsWith "on" lower
  || String.eqb lower "style"
  || negb (JS.has globalAllowlist lower
           || JS.startsWith "data-" lower
           || JS.has (tagAllowlist tagName) lower)
  || ((String.eqb lower "href" || String.eqb lower "src")
      && negb (isSafeUrl h value)).


Definition isAllowedTag (localName : string) : bool :=
  JS.has ALLOWED_TAGS (JS.toLowerCase (Dom.tagName localName)).

Definition isAnchor (localName : string) : bool :=
  String.eqb (JS.toLowerCase (Dom.tagName localName)) "a".

Definition isBlankTarget (attrs : list (string * string)) : bool :=
  match Dom.getAttribute attrs "target" with
  | Some target => String.eqb (JS.toLowerCase target) "_blank"
  | None => false
  end.

Definition relOf (attrs : list (string * string)) : string :=
  match Dom.getAttribute attrs "rel" with
  | Some r => r
  | None => EmptyString
  end.

(** The [rel] value written on a hardened link whose [rel] was [rel]. *)
Definition hardenedRel (rel : string) : string :=
  JS.join " " (setAdd (setAdd (newSet (relTokensOf rel)) "noopener") "noreferrer").

Definition attributesOf (n : Dom.node) : list (string * string) :=
  match n with
  | Dom.Element _ attrs _ => attrs
  | _ => []
  end.

Fixpoint allChars (p : ascii -> bool) (s : string) : bool :=
  match s with
  | EmptyString => true
  | String c r => p c && allChars p r
  end.

(** A string without white space: a token. *)
Definition wsFree (s : string) : bool :=
  allChars (fun c => negb (JS.isWhiteSpace c)) s.

Definition isToken (x : string) : Prop := wsFree x = true /\ x <> EmptyString.



(** *** Action validation, section 4.3 *)

Definition isStringValue (v : value) : Prop := exists s, v = VString s.

Definition isNonEmptyStringValue (v : value) : Prop :=
  exists s, v = VString s /\ s <> EmptyString.

Definition absentOr (P : value -> Prop) (v : value) : Prop :=
  v = VUndefined \/ P v.

(** The link shape of an action, clause by clause. *)
Record LinkActionShape (h : Host) (hp : heap) (action : value) : Prop := {
  link_is_object : exists l, action = VObject l;
  link_kind : get hp action "kind" = VString "link";
  link_label : isNonEmptyStringValue (get hp action "label");
  link_type : get hp action "type" = VString "primary"
              \/ get hp action "type" = VString "secondary";
  link_href : exists href, get hp action "href" = VString href
                           /\ href <> EmptyString /\ isSafeUrl h href = true;
  link_target : absentOr (fun v => exists t, v = VString t /\ JS.startsWith "_" t = true)
                         (get hp action "target");
  link_rel : absentOr isStringValue (get hp action "rel");
  link_id : absentOr isStringValue (get hp action "id")
}.

(** The scheme the URL parser reads off [href] as the validator passes it. *)
Definition urlScheme (href : string) : option string :=
  option_map fst (Url.scanScheme (Url.clean (JS.trim href))).

Definition isInvalid (r : ValidationResult) : bool :=
  match r with
  | Invalid _ => true
  | Valid _ => false
  end.

Definition isObjectValue (v : value) : bool :=
  match v with
  | VObject _ => true
  | _ => false
  end.

(** The words of the checks, each read off the value it is about. *)
Definition isPresent (v : value) : bool :=
  match v with
  | VUndefined => false
  | _ => true
  end.

Definition holdsString (v : value) : bool :=
  match v with
  | VString _ => true
  | _ => false
  end.

Definition holdsNonEmptyString (v : value) : bool :=
  match v with
  | VString (String _ _) => true
  | _ => false
  end.

Definition holdsStringOrNull (v : value) : bool :=
  match v with
  | VString _ | VNull => true
  | _ => false
  end.

Definition holdsText (text : string) (v : value) : bool :=
  match v with
  | VString s => String.eqb s text
  | _ => false
  end.

(** "If present": an absent field passes. *)
Definition ifPresent (test : value -> bool) (v : value) : bool :=
  negb (isPresent v) || test v.

(** The link shape and the callback shape of action validation, clause by
    clause, as tests. *)
Definition linkShape (h : Host) (hp : heap) (action : value) : bool :=
  isObjectValue action
  && holdsText "link" (get hp action "kind")
  && holdsNonEmptyString (get hp action "label")
  && (holdsText "primary" (get hp action "type")
      || holdsText "secondary" (get hp action "type"))
  && holdsNonEmptyString (get hp action "href")
  && match get hp action "href" with
     | VString href => isSafeUrl h href
     | _ => false
     end
  && ifPresent (fun target => match target with
                              | VString t => JS.startsWith "_" t
                              | _ => false
                              end) (get hp action "target")
  && ifPresent holdsString (get hp action "rel")
  && ifPresent holdsString (get hp action "id").

Definition callbackShape (hp : heap) (action : value) : bool :=
  isObjectValue action
  && holdsText "callback" (get hp action "kind")
  && holdsNonEmptyString (get hp action "label")
  && (holdsText "primary" (get hp action "type")
      || holdsText "secondary" (get hp action "type"))
  && holdsNonEmptyString (get hp action "actionId")
  && ifPresent holdsString (get hp action "id").

(** Action validation of a present value: a non-null object of one of the
    two shapes. *)
Definition actionValidation (h : Host) (hp : heap) (action : value) : bool :=
  linkShape h hp action || callbackShape hp action.

(** The nine checks in the order of section 4.3: the field a check is
    about, the test it must pass, and the reason given when it does not.
    [textField] is the test of the title, snippet and category checks. *)
Definition detailsChecks (textField : value -> bool) (h : Host) (hp : heap)
  : list (string * (value -> bool) * string) :=
  [ ("Response", isObjectValue, "Response must be an object");
    ("messageId", fun r => holdsNonEmptyString (get hp r "messageId"),
     "messageId must be a non-empty string");
    ("title", fun r => textField (get hp r "title"),
     "title must be a string or null");
    ("snippet", fun r => textField (get hp r "snippet"),
     "snippet must be a string or null");
    ("createdAt", fun r => holdsNonEmptyString (get hp r "createdAt"),
     "createdAt must be a non-empty string");
    ("bodyHtml", fun r => holdsString (get hp r "bodyHtml"),
     "bodyHtml must be a string");
    ("category", fun r => textField (get hp r "category"),
     "category must be a string or null");
    ("primaryAction",
     fun r => ifPresent (actionValidation h hp) (get hp r "primaryAction"),
     "primaryAction has invalid structure or unsafe URL");
    ("secondaryAction",
     fun r => ifPresent (actionValidation h hp) (get hp r "secondaryAction"),
     "secondaryAction has invalid structure or unsafe URL") ].

(** The checks in the words of section 4.3: title, snippet and category
    fail when the field "is present and neither a string nor null". *)
Definition specChecks (h : Host) (hp : heap)
  : list (string * (value -> bool) * string) :=
  detailsChecks (ifPresent holdsStringOrNull) h hp.

(** The same nine checks with title, snippet and category failing for
    every value that is neither a string nor null, an absent field
    included. *)
Definition responseChecks (h : Host) (hp : heap)
  : list (string * (value -> bool) * string) :=
  detailsChecks holdsStringOrNull h hp.

Fixpoint firstFailure (checks : list (string * (value -> bool) * string))
    (response : value) : option string :=
  match checks with
  | [] => None
  | (_, passes, reason) :: rest =>
      if passes response then firstFailure rest response else Some reason
  end.

(** A slot of a typed [MessageDetails] record: absent, or an allocated
    object. *)
Definition actionSlotTyped (hp : heap) (response : loc) (key : string) : bool :=
  match props hp response !! key with
  | None | Some VUndefined => true
  | Some (VObject a) =>
      match hp !! a with
      | Some _ => true
      | None => false
      end
  | Some _ => false
  end.

(** "Present and fails the action-shape-and-URL check". *)
Definition actionStripped (h : Host) (hp : heap) (o : gmap string value)
    (key : string) : bool :=
  match o !! key with
  | Some v => negb (validateAction h hp v)
  | None => false
  end.

Definition isActionSlot (key : string) : bool :=
  String.eqb key "primaryAction" || String.eqb key "secondaryAction".

(** ** Hosts and data used in the examples *)

(** Server-side rendering: no [window], no [DOMParser].  The examples use
    this host only on inputs that the URL Standard's parser accepts. *)
Definition server_host : Host :=
  {| window_location := None;
     url_accepts := fun _ _ => true;
     dom_parser := None |}.

(** A page opened from the file system. *)
Definition file_page_host : Host :=
  {| window_location := Some "file:///srv/app/index.html";
     url_accepts := fun _ _ => true;
     dom_parser := None |}.

Definition unsafe_link : gmap string value :=
  list_to_map [ ("kind", VString "link"); ("label", VString "Click me");
                ("type", VString "primary");
                ("href", VString "javascript:alert('xss')") ].

Definition safe_link : gmap string value :=
  list_to_map [ ("kind", VString "link"); ("label", VString "Valid");
                ("type", VString "primary");
                ("href", VString "https://safe.example.com");
                ("target", VString "_blank") ].

Definition sample_message (primary : loc) : gmap string value :=
  list_to_map [ ("messageId", VString "msg-123"); ("title", VString "Test Title");
                ("snippet", VString "Test snippet");
                ("createdAt", VString "2024-01-15T10:00:00Z");
                ("bodyHtml", VString "<p>Hello World</p>");
                ("category", VString "updates");
                ("primaryAction", VObject primary) ].

(** Object 1 is a message whose primary action is object 2, the unsafe
    link; object 3 is a safe link. *)
Definition sample_heap : heap :=
  list_to_map [ (1%positive, sample_message 2%positive); (2%positive, unsafe_link);
                (3%positive, safe_link) ].

Definition sample_anchor : Dom.node :=
  Dom.Element "a"
    [ ("href", "javascript:alert(1)"); ("target", "_blank"); ("onclick", "evil()");
      ("style", "color: red"); ("rel", "external") ]
    [ Dom.Element "script" [] [ Dom.Text "alert(1)" ]; Dom.Text "Click" ].


(** ** Further code of the three modules and of their callers *)

(** *** src/utils/safeUrl.ts: [safeNavigate] *)

(** What [safeNavigate] asks of the window: [window.location.assign(url)],
    [window.open(url, target, features)], and [opened.opener = null] on the
    handle that [window.open] returned. *)
Inductive NavEffect : Type :=
| LocationAssign (url : string)
| WindowOpen (url target features : string)
| OpenerCleared.

(** [opened] tells whether [window.open] returns a handle. A window is taken
    to have a location, as [window_location] records it. *)
Definition safeNavigate (h : Host) (opened : bool) (href : string)
    (target : option string) : list NavEffect :=
  match window_location h with
  | None => []
  | Some _ =>
      match normalizeSafeUrl h href with
      | None => []
      | Some safeHref =>
          if String.eqb safeHref EmptyString then []
          else
            let targetValue :=
              match target with
              | Some t => t
              | None => "_self"
              end in
            if String.eqb targetValue "_self" then [LocationAssign safeHref]
            else
              WindowOpen safeHref targetValue "noopener,noreferrer"
              :: (if opened then [OpenerCleared] else [])
      end
  end.

(** The url an effect navigates to. *)
Definition navigatedUrl (e : NavEffect) : option string :=
  match e with
  | LocationAssign url => Some url
  | WindowOpen url _ _ => Some url
  | OpenerCleared => None
  end.

(** The [target] argument that a caller passes from an action's field. *)
Definition targetArgument (v : value) : option string :=
  match v with
  | VString t => Some t
  | _ => None
  end.

(** A page served over https. *)
Definition web_page_host : Host :=
  {| window_location := Some "https://app.example.com/inbox";
     url_accepts := fun _ _ => true;
     dom_parser := None |}.

(** *** src/utils/validateApiResponse.ts: the callback shape and the
    accepted payloads *)

Record CallbackActionShape (hp : heap) (action : value) : Prop := {
  callback_is_object : exists l, action = VObject l;
  callback_kind : get hp action "kind" = VString "callback";
  callback_label : isNonEmptyStringValue (get hp action "label");
  callback_type : get hp action "type" = VString "primary"
                  \/ get hp action "type" = VString "secondary";
  callback_actionId : isNonEmptyStringValue (get hp action "actionId");
  callback_id : absentOr isStringValue (get hp action "id")
}.

Definition isStringOrNullValue (v : value) : Prop := v = VNull \/ isStringValue v.

(** The payloads that [validateMessageDetailsResponse] accepts. *)
Record AcceptedDetails (h : Host) (hp : heap) (response : value) : Prop := {
  accepted_object : exists l, response = VObject l;
  accepted_messageId : isNonEmptyStringValue (get hp response "messageId");
  accepted_title : isStringOrNullValue (get hp response "title");
  accepted_snippet : isStringOrNullValue (get hp response "snippet");
  accepted_createdAt : isNonEmptyStringValue (get hp response "createdAt");
  accepted_bodyHtml : isStringValue (get hp response "bodyHtml");
  accepted_category : isStringOrNullValue (get hp response "category");
  accepted_primary : validateAction h hp (get hp response "primaryAction") = true;
  accepted_secondary : validateAction h hp (get hp response "secondaryAction") = true
}.

Definition callback_action : gmap string value :=
  list_to_map [ ("kind", VString "callback"); ("label", VString "Snooze");
                ("type", VString "secondary"); ("actionId", VString "action-456") ].

(** Object 1 is a message with the safe link 2 and the callback 3. *)
Definition valid_heap : heap :=
  list_to_map [ (1%positive,
                 <["secondaryAction" := VObject 3%positive]>
                   (sample_message 2%positive));
                (2%positive, safe_link); (3%positive, callback_action) ].

(** *** src/utils/sanitizeHtml.ts: text and markup that stays *)

(** The text content of a list of child nodes. *)
Fixpoint textContentAll (nodes : list Dom.node) : string :=
  match nodes with
  | [] => EmptyString
  | n :: rest => Dom.textContent n +:+ textContentAll rest
  end.




(** *** src/components/Feed.tsx: filters and the message list *)

Definition DEFAULT_FEED_TYPES : list string := ["unread"; "read"].
Definition ALLOWED_FEED_TYPES : list string := ["read"; "unread"; "archived"; "all"].

(** The [type] prop of the feed: left out, one filter, or an array. *)
Inductive FeedTypeProp : Type :=
| TypeUndefined
| TypeOne (item : string)
| TypeArray (items : list string).

Definition normalizeTypeFilters (value : FeedTypeProp) : list string :=
  if match value with
     | TypeUndefined => true
     | TypeOne item => negb (nonEmpty item)
     | TypeArray _ => false
     end
  then DEFAULT_FEED_TYPES
  else
    let source :=
      match value with
      | TypeArray items => items
      | TypeOne item => [item]
      | TypeUndefined => []
      end in
    let normalized :=
      List.filter
        (fun item => if nonEmpty item then JS.has ALLOWED_FEED_TYPES item else false)
        source in
    if Nat.eqb (length normalized) 0 then DEFAULT_FEED_TYPES
    else
      let unique := newSet normalized in
      if JS.has unique "all" then ["all"] else unique.

Section FeedMessages.

(** A message, of which the list code reads the id and the creation date;
    [getTime s] is [new Date(s).getTime()] for a date string that parses.
    A date that does not parse gives NaN, for which the order that
    [Array.prototype.sort] produces is left to the implementation: what is
    shown about the order of the list is for dates that parse. *)
Variable Message : Type.
Variable id : Message -> string.
Variable createdAt : Message -> string.
Variable getTime : string -> Z.

(** [byId.set(key, message)] on a [Map], entries in insertion order. *)
Fixpoint mapSet (byId : list (string * Message)) (key : string) (message : Message)
  : list (string * Message) :=
  match byId with
  | [] => [(key, message)]
  | (k, m) :: rest =>
      if String.eqb k key then (k, message) :: rest
      else (k, m) :: mapSet rest key message
  end.

(** The comparator [(a, b) => time(b) - time(a)]. *)
Definition compareNewestFirst (a b : Message) : Z :=
  (getTime (createdAt b) - getTime (createdAt a))%Z.

(** [Array.prototype.sort] is stable; with a consistent comparator its
    result is the one of a stable insertion sort. *)
Fixpoint insertSorted (compare : Message -> Message -> Z) (m : Message)
    (sorted : list Message) : list Message :=
  match sorted with
  | [] => [m]
  | x :: rest =>
      if (compare x m <? 0)%Z then x :: insertSorted compare m rest
      else m :: x :: rest
  end.

Definition sortStable (compare : Message -> Message -> Z) (items : list Message)
  : list Message :=
  fold_right (insertSorted compare) [] items.

Definition sortAndDedupeMessages (items : list Message) : list Message :=
  let byId := fold_left (fun byId message => mapSet byId (id message) message) items [] in
  sortStable compareNewestFirst (List.map snd byId).

(** The last message of a list that has the given id. *)
Fixpoint lastWithId (items : list Message) (key : string) : option Message :=
  match items with
  | [] => None
  | m :: rest =>
      match lastWithId rest key with
      | Some x => Some x
      | None => if String.eqb (id m) key then Some m else None
      end
  end.

Fixpoint mapGet (byId : list (string * Message)) (key : string) : option Message :=
  match byId with
  | [] => None
  | (k, m) :: rest => if String.eqb k key then Some m else mapGet rest key
  end.

(** The loop body [byId.set(message.id, message)]. *)
Definition setById (byId : list (string * Message)) (message : Message)
  : list (string * Message) :=
  mapSet byId (id message) message.

(** The entries of a map that holds each message of a list under its id. *)
Definition entriesOf (items : list Message) : list (string * Message) :=
  List.map (fun m => (id m, m)) items.

(** The order of the list: [a] is not older than [b]. *)
Definition newestFirst (a b : Message) : Prop :=
  (getTime (createdAt b) <= getTime (createdAt a))%Z.

End FeedMessages.

(** An example message: id, creation date, title. *)
Definition example_messages : list (string * string * string) :=
  [ ("m1", "2024-01-15", "first"); ("m2", "2024-01-17", "second");
    ("m1", "2024-01-16", "first, edited") ].

(** [new Date(s).getTime()] on the three dates of the example. *)
Definition example_getTime (date : string) : Z :=
  if String.eqb date "2024-01-15" then 1705276800000
  else if String.eqb date "2024-01-16" then 1705363200000
  else if String.eqb date "2024-01-17" then 1705449600000
  else 0.

(** * Properties *)

(** ** Characters and strings *)

Ltac each_char c := destruct c as [[] [] [] [] [] [] [] []].

Lemma app_nil (b : string) : EmptyString +:+ b = b.
Proof. reflexivity. Qed.

Lemma app_cons c (a b : string) : String c a +:+ b = String c (a +:+ b).
Proof. reflexivity. Qed.

Lemma mapStr_app f a b : JS.mapStr f (a +:+ b) = JS.mapStr f a +:+ JS.mapStr f b.
Proof.
  induction a as [|c a IH]; [reflexivity|].
  rewrite app_cons. simpl. rewrite app_cons. now f_equal.
Qed.

Lemma app_empty_r (s : string) : s +:+ EmptyString = s.
Proof. induction s as [|c s IH]; [reflexivity|]. rewrite app_cons. now f_equal. Qed.

Lemma app_assoc_str (a b c : string) : (a +:+ b) +:+ c = a +:+ (b +:+ c).
Proof.
  induction a as [|x a IH]; [reflexivity|]. rewrite !app_cons. now f_equal.
Qed.

Lemma length_app_str (a b : string) :
  String.length (a +:+ b) = String.length a + String.length b.
Proof.
  induction a as [|x a IH]; [reflexivity|]. rewrite app_cons. simpl. now f_equal.
Qed.

Lemma schemeChar_lower_stable c :
  Url.isSchemeChar c = true ->
  JS.toLowerChar (JS.asciiLowerChar c) = JS.asciiLowerChar c.
Proof. each_char c; vm_compute; intros H; first [reflexivity | discriminate H]. Qed.

Lemma alpha_is_schemeChar c : JS.isAsciiAlpha c = true -> Url.isSchemeChar c = true.
Proof.
  unfold Url.isSchemeChar, JS.isAsciiAlphanumeric. intros ->. reflexivity.
Qed.

(** ** The scheme read by the URL parser is in lower case *)

Lemma schemeState_lower buffer s scheme rest :
  JS.toLowerCase buffer = buffer ->
  Url.schemeState buffer s = Some (scheme, rest) ->
  JS.toLowerCase scheme = scheme.
Proof.
  revert buffer. induction s as [|c s IH]; intros buffer Hb; simpl; [discriminate|].
  destruct (Url.isSchemeChar c) eqn:Hc.
  - apply IH. unfold JS.toLowerCase in *. rewrite mapStr_app, Hb. simpl.
    now rewrite schemeChar_lower_stable.
  - destruct (Ascii.eqb c ":"); [|discriminate].
    intros [= <- _]. exact Hb.
Qed.

Lemma scanScheme_lower s scheme rest :
  Url.scanScheme s = Some (scheme, rest) -> JS.toLowerCase scheme = scheme.
Proof.
  destruct s as [|c s]; simpl; [discriminate|].
  destruct (JS.isAsciiAlpha c) eqn:Hc; [|discriminate].
  apply schemeState_lower. unfold JS.toLowerCase. simpl.
  now rewrite schemeChar_lower_stable by now apply alpha_is_schemeChar.
Qed.

Lemma resolvedScheme_lower value base scheme :
  Url.resolvedScheme value base = Some scheme -> JS.toLowerCase scheme = scheme.
Proof.
  unfold Url.resolvedScheme.
  destruct (Url.scanScheme (Url.clean base)) as [[bs br]|] eqn:Hb; [|discriminate].
  destruct (Url.scanScheme (Url.clean value)) as [[vs vr]|] eqn:Hv.
  - intros [= <-]. eapply scanScheme_lower, Hv.
  - destruct (_ && _); [discriminate|]. intros [= <-]. eapply scanScheme_lower, Hb.
Qed.

Lemma protocol_lower h value base p :
  Url.protocol h value base = Some p -> JS.toLowerCase p = p.
Proof.
  unfold Url.protocol. destruct (url_accepts h value base); [|discriminate].
  destruct (Url.resolvedScheme value base) as [scheme|] eqn:Hs; [|discriminate].
  simpl. intros [= <-]. unfold JS.toLowerCase. rewrite mapStr_app.
  fold (JS.toLowerCase scheme). now rewrite (resolvedScheme_lower _ _ _ Hs).
Qed.

Lemma allowlist_exact p :
  JS.toLowerCase p = p -> schemeOnAllowlist p = JS.has SAFE_PROTOCOLS p.
Proof.
  intros Hp. unfold schemeOnAllowlist, equalsIgnoreCase, JS.has, SAFE_PROTOCOLS.
  simpl. rewrite Hp. reflexivity.
Qed.

(** C2. [normalizeSafeUrl] is the reference validator of section 4.1: trim;
    empty gives null; a leading [#] gives the trimmed string; otherwise the
    scheme of the URL resolved against the document location (or the
    fallback base) decides, compared without regard to case, and the
    trimmed string itself is returned; [isSafeUrl] tells whether the result
    is non-null. *)
Theorem normalizeSafeUrl_refines_reference (h : Host) (raw : string) :
  normalizeSafeUrl h raw = normalizeSafeUrl_reference h raw
  /\ isSafeUrl h raw =
     match normalizeSafeUrl_reference h raw with
     | Some _ => true
     | None => false
     end.
Proof.
  assert (E : normalizeSafeUrl h raw = normalizeSafeUrl_reference h raw).
  { unfold normalizeSafeUrl, normalizeSafeUrl_reference, documentBase.
    destruct (JS.trim raw) as [|c r] eqn:Ht; [reflexivity|].
    cbn [String.eqb JS.startsWith]. rewrite Ascii.eqb_sym.
    destruct (Ascii.eqb c "#"); [reflexivity|]. cbn [andb].
    destruct (Url.protocol h _ _) as [p|] eqn:Hp; [|reflexivity].
    rewrite (allowlist_exact p (protocol_lower _ _ _ _ Hp)).
    now destruct (JS.has SAFE_PROTOCOLS p). }
  split; [exact E|]. unfold isSafeUrl. now rewrite E.
Qed.

(** The examples of section 8, without a browsing context. *)
Example safe_urls_accepted :
  List.map (isSafeUrl server_host)
    [ "https://example.com"; "http://example.com"; "mailto:a@b.com";
      "tel:+15551234567"; "#frag"; "/relative"; "path/to/page";
      "  HTTPS://Example.com  " ]
  = [ true; true; true; true; true; true; true; true ].
Proof. reflexivity. Qed.

Example unsafe_urls_rejected :
  List.map (isSafeUrl server_host)
    [ "javascript:alert(1)"; "data:text/html,<script>"; "vbscript:x";
      "file:///etc/passwd"; "JaVaScRiPt:alert(1)"; "JAVASCRIPT:void(0)";
      EmptyString; "   " ]
  = [ false; false; false; false; false; false; false; false ].
Proof. reflexivity. Qed.

Example trimmed_original_returned :
  normalizeSafeUrl server_host "  HTTPS://Example.com/a%20b  "
  = Some "HTTPS://Example.com/a%20b".
Proof. reflexivity. Qed.

(** ** Protocol-relative references *)

Lemma startsWith_cons a p s :
  JS.startsWith (String a p) s = true ->
  exists s', s = String a s' /\ JS.startsWith p s' = true.
Proof.
  destruct s as [|b s]; simpl; [discriminate|].
  intros H. apply andb_true_iff in H as [Hab Hp].
  apply Ascii.eqb_eq in Hab. subst b. now exists s.
Qed.

Lemma stripTrailing_keeps_head c r :
  Url.isC0ControlOrSpace c = false ->
  exists r', Url.stripTrailing (String c r) = String c r'.
Proof.
  intros Hc. simpl. destruct (Url.stripTrailing r) as [|d r'].
  - rewrite Hc. now exists EmptyString.
  - now exists (String d r').
Qed.

Lemma clean_slash r :
  exists r', Url.clean (String "/" r) = String "/" r'.
Proof.
  unfold Url.clean. cbn [Url.stripLeading].
  change (Url.isC0ControlOrSpace "/") with false. cbv iota.
  destruct (stripTrailing_keeps_head "/"%char r eq_refl) as [r' ->].
  now exists (Url.removeTabNewline r').
Qed.

Lemma resolvedScheme_slash r base bscheme brest :
  Url.scanScheme (Url.clean base) = Some (bscheme, brest) ->
  Url.resolvedScheme (String "/" r) base =
  if Url.hasOpaquePath bscheme brest then None else Some bscheme.
Proof.
  intros Hb. unfold Url.resolvedScheme. rewrite Hb.
  destruct (clean_slash r) as [r' ->]. cbn.
  now destruct (Url.hasOpaquePath bscheme brest).
Qed.

(** C10, as the code has it. A protocol-relative reference takes the scheme
    of the base it is resolved against: when it parses, [normalizeSafeUrl]
    returns the trimmed string exactly when the scheme of the document
    location is on the allow-list; without a browsing context the fallback
    base makes that scheme http, and the string is accepted. *)
Theorem protocol_relative_follows_base (h : Host) (raw p : string) :
  JS.startsWith "//" (JS.trim raw) = true ->
  Url.protocol h (JS.trim raw) (documentBase h) = Some p ->
  (exists bscheme brest,
      Url.scanScheme (Url.clean (documentBase h)) = Some (bscheme, brest)
      /\ p = bscheme +:+ ":")
  /\ normalizeSafeUrl h raw
     = (if JS.has SAFE_PROTOCOLS p then Some (JS.trim raw) else None)
  /\ isSafeUrl h raw = JS.has SAFE_PROTOCOLS p
  /\ (window_location h = None ->
      normalizeSafeUrl h raw = Some (JS.trim raw) /\ isSafeUrl h raw = true).
Proof.
  intros Hpre Hp.
  assert (Hn : normalizeSafeUrl h raw
               = if JS.has SAFE_PROTOCOLS p then Some (JS.trim raw) else None).
  { unfold normalizeSafeUrl. fold (documentBase h).
    destruct (startsWith_cons _ _ _ Hpre) as (r & Ht & _).
    rewrite Ht in *. cbn [String.eqb]. change (JS.startsWith "#" (String "/" r)) with false.
    cbv iota. rewrite Hp. now destruct (JS.has SAFE_PROTOCOLS p). }
  assert (Hb : exists bscheme brest,
             Url.scanScheme (Url.clean (documentBase h)) = Some (bscheme, brest)
             /\ p = bscheme +:+ ":").
  { destruct (startsWith_cons _ _ _ Hpre) as (r & Ht & _).
    rewrite Ht in *. unfold Url.protocol in Hp.
    destruct (url_accepts h _ _); [|discriminate Hp].
    destruct (Url.scanScheme (Url.clean (documentBase h))) as [[bs br]|] eqn:Hs.
    - rewrite (resolvedScheme_slash _ _ _ _ Hs) in Hp.
      destruct (Url.hasOpaquePath bs br); [discriminate Hp|].
      injection Hp as <-. now exists bs, br.
    - unfold Url.resolvedScheme in Hp. rewrite Hs in Hp. discriminate Hp. }
  split; [exact Hb|]. split; [exact Hn|]. split.
  - unfold isSafeUrl. rewrite Hn. now destruct (JS.has SAFE_PROTOCOLS p).
  - intros Hw. destruct Hb as (bs & br & Hs & ->).
    unfold documentBase in Hs. rewrite Hw in Hs. vm_compute in Hs.
    injection Hs as <- <-. unfold isSafeUrl. rewrite Hn. now split.
Qed.

Lemma protocol_relative_follows_base_witness :
  JS.startsWith "//" (JS.trim "//cdn.example.com/logo.png") = true
  /\ normalizeSafeUrl server_host "//cdn.example.com/logo.png"
     = Some "//cdn.example.com/logo.png".
Proof.
  split; [reflexivity|].
  apply (protocol_relative_follows_base server_host
           "//cdn.example.com/logo.png" "http:"); reflexivity.
Defined.

(** C10 as stated fails in a document that is not served over http(s): on a
    page opened from a file, the reference parses, resolves to the [file:]
    scheme and is rejected. *)
Lemma protocol_relative_rejected_on_file_page :
  JS.startsWith "//" (JS.trim "//example.com/x") = true
  /\ Url.protocol file_page_host (JS.trim "//example.com/x")
       (documentBase file_page_host) = Some "file:"
  /\ normalizeSafeUrl file_page_host "//example.com/x" = None
  /\ isSafeUrl file_page_host "//example.com/x" = false.
Proof. vm_compute. repeat split. Qed.

(** ** The shape checks of the response validator *)

Lemma value_eqb_true a b : value_eqb a b = true <-> a = b.
Proof. unfold value_eqb. apply bool_decide_eq_true. Qed.

Lemma value_eqb_false a b : value_eqb a b = false <-> a <> b.
Proof. unfold value_eqb. apply bool_decide_eq_false. Qed.

Lemma typeof_string v : String.eqb (typeof v) "string" = true <-> isStringValue v.
Proof.
  unfold isStringValue. split.
  - destruct v as [| | b | n | s | l]; intros H;
      try (vm_compute in H; discriminate H).
    now exists s.
  - intros [s ->]. reflexivity.
Qed.

Lemma isNonEmptyString_spec v :
  isNonEmptyString v = true <-> isNonEmptyStringValue v.
Proof.
  unfold isNonEmptyStringValue. split.
  - destruct v as [| | b | n | s | l]; intros H;
      try (vm_compute in H; discriminate H).
    exists s. split; [reflexivity|]. intros ->. discriminate H.
  - intros (s & -> & Hne). destruct s; [contradiction|reflexivity].
Qed.

Lemma isValidActionType_spec v :
  isValidActionType v = true <-> v = VString "primary" \/ v = VString "secondary".
Proof.
  unfold isValidActionType. rewrite orb_true_iff, !value_eqb_true. reflexivity.
Qed.

Lemma standard_targets_start_with_underscore s :
  JS.has ["_self"; "_blank"; "_parent"; "_top"] s || JS.startsWith "_" s
  = JS.startsWith "_" s.
Proof.
  destruct (JS.has _ s) eqn:H; [|reflexivity]. simpl.
  unfold JS.has in H. simpl in H.
  repeat (apply orb_true_iff in H as [H|H];
          [apply String.eqb_eq in H; subst s; reflexivity|]).
  discriminate H.
Qed.

Lemma isValidTarget_spec v :
  isValidTarget v = true
  <-> absentOr (fun v => exists t, v = VString t /\ JS.startsWith "_" t = true) v.
Proof.
  unfold absentOr. split.
  - destruct v as [| | b | n | s | l]; intros H;
      try (now left); try (vm_compute in H; discriminate H).
    right. exists s. split; [reflexivity|].
    unfold isValidTarget in H.
    change (value_eqb (VString s) VUndefined) with false in H.
    cbn [typeof String.eqb Ascii.eqb Bool.eqb negb] in H. cbv iota in H.
    now rewrite standard_targets_start_with_underscore in H.
  - intros [-> | (t & -> & H)]; [reflexivity|].
    unfold isValidTarget.
    change (value_eqb (VString t) VUndefined) with false.
    cbn [typeof String.eqb Ascii.eqb Bool.eqb negb]. cbv iota.
    now rewrite standard_targets_start_with_underscore.
Qed.

Lemma optional_string_spec v :
  negb (value_eqb v VUndefined) && negb (String.eqb (typeof v) "string") = false
  <-> absentOr isStringValue v.
Proof.
  unfold absentOr, isStringValue. split.
  - destruct v as [| | b | n | s | l]; intros H;
      try (now left); try (vm_compute in H; discriminate H).
    right. now exists s.
  - intros [-> | (t & ->)]; reflexivity.
Qed.

Lemma nonnull_object_spec v :
  negb (String.eqb (typeof v) "object") || value_eqb v VNull = false
  <-> exists l, v = VObject l.
Proof.
  split.
  - destruct v as [| | b | n | s | l]; intros H;
      try (vm_compute in H; discriminate H).
    now exists l.
  - intros [l ->]. reflexivity.
Qed.

Lemma validateLinkAction_spec h hp action :
  validateLinkAction h hp action = true <-> LinkActionShape h hp action.
Proof.
  unfold validateLinkAction. split.
  - intros H.
    destruct (negb _ || value_eqb action VNull) eqn:Hobj; [discriminate H|].
    destruct (value_eqb (get hp action "kind") (VString "link")) eqn:Hkind;
      [|discriminate H].
    destruct (isNonEmptyString (get hp action "label")) eqn:Hlabel; [|discriminate H].
    destruct (isValidActionType (get hp action "type")) eqn:Htype; [|discriminate H].
    destruct (isNonEmptyString (get hp action "href")) eqn:Hhref; [|discriminate H].
    cbn [negb] in H.
    destruct (get hp action "href") as [| | b | n | href | l] eqn:Hh;
      try discriminate Hhref.
    destruct (isSafeUrl h href) eqn:Hsafe; [|discriminate H].
    destruct (isValidTarget (get hp action "target")) eqn:Htarget; [|discriminate H].
    cbn [negb] in H.
    destruct (negb (value_eqb (get hp action "rel") VUndefined) && _) eqn:Hrel;
      [discriminate H|].
    destruct (negb (value_eqb (get hp action "id") VUndefined) && _) eqn:Hid;
      [discriminate H|].
    constructor.
    + now apply nonnull_object_spec.
    + now apply value_eqb_true.
    + now apply isNonEmptyString_spec.
    + now apply isValidActionType_spec.
    + exists href. rewrite <- Hh in Hhref. apply isNonEmptyString_spec in Hhref.
      destruct Hhref as (s & Hs & Hne). rewrite Hh in Hs. injection Hs as <-.
      now repeat split.
    + now apply isValidTarget_spec.
    + now apply optional_string_spec.
    + now apply optional_string_spec.
  - intros [Hobj Hkind Hlabel Htype (href & Hh & Hne & Hsafe) Htarget Hrel Hid].
    apply nonnull_object_spec in Hobj. rewrite Hobj.
    apply value_eqb_true in Hkind. rewrite Hkind.
    apply isNonEmptyString_spec in Hlabel. rewrite Hlabel.
    apply isValidActionType_spec in Htype. rewrite Htype.
    assert (Hhref : isNonEmptyString (get hp action "href") = true).
    { apply isNonEmptyString_spec. exists href. now split. }
    rewrite Hhref, Hh, Hsafe.
    apply isValidTarget_spec in Htarget. rewrite Htarget.
    apply optional_string_spec in Hrel, Hid. rewrite Hrel, Hid. reflexivity.
Qed.

(** ** A scheme off the allow-list is never safe *)

Lemma clean_head c r :
  Url.isC0ControlOrSpace c = false ->
  exists r', Url.clean (String c r) = String c r'.
Proof.
  intros Hc. unfold Url.clean. cbn [Url.stripLeading]. rewrite Hc.
  destruct (stripTrailing_keeps_head c r Hc) as [r' ->].
  cbn [Url.removeTabNewline].
  assert (Ht : Url.isTabOrNewline c = false).
  { revert Hc. each_char c; vm_compute; intros H; first [reflexivity | discriminate H]. }
  rewrite Ht. now exists (Url.removeTabNewline r').
Qed.

Lemma scheme_off_allowlist_unsafe h href scheme :
  urlScheme href = Some scheme ->
  JS.has SAFE_PROTOCOLS (scheme +:+ ":") = false ->
  normalizeSafeUrl h href = None /\ isSafeUrl h href = false.
Proof.
  intros Hs Hoff.
  assert (Hn : normalizeSafeUrl h href = None).
  { unfold urlScheme in Hs. unfold normalizeSafeUrl. fold (documentBase h).
    destruct (Url.scanScheme (Url.clean (JS.trim href))) as [[sch rest]|] eqn:Hscan;
      [|discriminate Hs].
    injection Hs as ->.
    destruct (JS.trim href) as [|c r] eqn:Ht; [reflexivity|].
    cbn [String.eqb].
    destruct (JS.startsWith "#" (String c r)) eqn:Hhash.
    - apply startsWith_cons in Hhash as (r' & Heq & _).
      rewrite Heq in Hscan.
      destruct (clean_head "#"%char r' eq_refl) as [r'' Hc].
      rewrite Hc in Hscan. discriminate Hscan.
    - unfold Url.protocol. destruct (url_accepts h _ _); [|reflexivity].
      unfold Url.resolvedScheme.
      destruct (Url.scanScheme (Url.clean (documentBase h))) as [[bs br]|];
        [|reflexivity].
      rewrite Hscan. cbn [option_map]. now rewrite Hoff. }
  split; [exact Hn|]. unfold isSafeUrl. now rewrite Hn.
Qed.

Lemma unsafe_link_fails_validateAction h hp v href :
  get hp v "kind" = VString "link" ->
  get hp v "href" = VString href ->
  isSafeUrl h href = false ->
  value_eqb v VUndefined = false /\ validateAction h hp v = false.
Proof.
  intros Hkind Hhref Hsafe.
  assert (Hv : value_eqb v VUndefined = false).
  { apply value_eqb_false. intros ->. discriminate Hkind. }
  split; [exact Hv|]. unfold validateAction. rewrite Hv.
  apply orb_false_iff. split.
  - destruct (validateLinkAction h hp v) eqn:Hl; [|reflexivity].
    apply validateLinkAction_spec in Hl.
    destruct (link_href _ _ _ Hl) as (href' & Hh' & _ & Hs').
    rewrite Hhref in Hh'. injection Hh' as <-. congruence.
  - unfold validateCallbackAction.
    destruct (negb _ || value_eqb v VNull); [reflexivity|].
    rewrite Hkind. reflexivity.
Qed.

(** C7. Link-action validation accepts exactly the link shape of section
    4.3; and a payload one of whose action slots holds a link whose href has
    the javascript scheme is rejected as a whole. *)
Theorem link_action_validation (h : Host) (hp : heap) (action response : value)
    (slot href : string) :
  (validateLinkAction h hp action = true <-> LinkActionShape h hp action)
  /\ (isActionSlot slot = true ->
      get hp (get hp response slot) "kind" = VString "link" ->
      get hp (get hp response slot) "href" = VString href ->
      urlScheme href = Some "javascript" ->
      isInvalid (validateMessageDetailsResponse h hp response) = true).
Proof.
  split; [apply validateLinkAction_spec|].
  intros Hslot Hkind Hhref Hjs.
  destruct (scheme_off_allowlist_unsafe h href "javascript" Hjs eq_refl) as [_ Hsafe].
  destruct (unsafe_link_fails_validateAction h hp _ href Hkind Hhref Hsafe)
    as [Hdef Hbad].
  unfold validateMessageDetailsResponse.
  repeat match goal with
         | |- isInvalid (if ?c then Invalid _ else _) = true =>
             destruct c eqn:?; [reflexivity|]
         end.
  exfalso. unfold isActionSlot in Hslot.
  apply orb_true_iff in Hslot as [Hslot|Hslot]; apply String.eqb_eq in Hslot;
    subst slot; rewrite Hdef, Hbad in *; discriminate.
Qed.

Lemma link_action_validation_witness :
  urlScheme "javascript:alert('xss')" = Some "javascript"
  /\ isInvalid (validateMessageDetailsResponse server_host sample_heap
                  (VObject 1%positive)) = true.
Proof.
  split; [reflexivity|].
  apply (proj2 (link_action_validation server_host sample_heap
                  (VObject 3%positive) (VObject 1%positive)
                  "primaryAction" "javascript:alert('xss')")); reflexivity.
Defined.

Example safe_link_is_valid :
  validateLinkAction server_host sample_heap (VObject 3%positive) = true.
Proof. reflexivity. Qed.

(** ** The order of the checks *)

(** The tests of the code and the words of the checks agree, test by test. *)
Lemma object_test v :
  negb (String.eqb (typeof v) "object") || value_eqb v VNull = negb (isObjectValue v).
Proof. destruct v; reflexivity. Qed.

Lemma present_test v : value_eqb v VUndefined = negb (isPresent v).
Proof. destruct v; reflexivity. Qed.

Lemma string_test v : String.eqb (typeof v) "string" = holdsString v.
Proof. destruct v; reflexivity. Qed.

Lemma nonEmptyString_test v : isNonEmptyString v = holdsNonEmptyString v.
Proof. destruct v as [| | b | n | s | l]; try reflexivity. now destruct s. Qed.

Lemma stringOrNull_test v : isStringOrNull v = holdsStringOrNull v.
Proof. destruct v; reflexivity. Qed.

Lemma text_test v text : value_eqb v (VString text) = holdsText text v.
Proof.
  destruct v as [| | b | n | s | l]; try (apply value_eqb_false; discriminate).
  cbn [holdsText]. destruct (String.eqb s text) eqn:E.
  - apply String.eqb_eq in E. subst s. now apply value_eqb_true.
  - apply value_eqb_false. intros [= ->]. now rewrite String.eqb_refl in E.
Qed.

Lemma actionType_test v :
  isValidActionType v = holdsText "primary" v || holdsText "secondary" v.
Proof. unfold isValidActionType. now rewrite !text_test. Qed.

Lemma target_test v :
  isValidTarget v
  = ifPresent (fun target => match target with
                             | VString t => JS.startsWith "_" t
                             | _ => false
                             end) v.
Proof.
  destruct v as [| | b | n | s | l]; try reflexivity.
  unfold isValidTarget, ifPresent. rewrite present_test, string_test.
  cbn [isPresent holdsString negb orb]. cbv zeta.
  apply standard_targets_start_with_underscore.
Qed.

Ltac each_test :=
  repeat match goal with
         | |- (if negb (negb ?a) && negb ?b then _ else _) = _ =>
             destruct a, b; cbn [negb andb orb]; try reflexivity
         | |- (if negb ?c then _ else _) = _ =>
             destruct c; cbn [negb andb orb]; [|reflexivity]
         end.

Lemma validateLinkAction_linkShape h hp action :
  validateLinkAction h hp action = linkShape h hp action.
Proof.
  unfold validateLinkAction, linkShape. cbv zeta.
  rewrite object_test, text_test, !nonEmptyString_test, actionType_test, target_test,
    !present_test, !string_test.
  unfold ifPresent. each_test; reflexivity.
Qed.

Lemma validateCallbackAction_callbackShape hp action :
  validateCallbackAction hp action = callbackShape hp action.
Proof.
  unfold validateCallbackAction, callbackShape. cbv zeta.
  rewrite object_test, text_test, !nonEmptyString_test, actionType_test,
    !present_test, !string_test.
  unfold ifPresent. each_test; reflexivity.
Qed.

Lemma validateAction_actionValidation h hp v :
  validateAction h hp v = ifPresent (actionValidation h hp) v.
Proof.
  unfold validateAction, ifPresent, actionValidation.
  rewrite present_test, validateLinkAction_linkShape,
    validateCallbackAction_callbackShape.
  now destruct (isPresent v).
Qed.

Lemma ifPresent_guard test v :
  negb (negb (isPresent v)) && negb (ifPresent test v) = negb (ifPresent test v).
Proof. unfold ifPresent. now destruct (isPresent v), (test v). Qed.

(** The validator stops at the first of the nine checks that fails. *)
Lemma validate_first_failure h hp response :
  validateMessageDetailsResponse h hp response
  = match firstFailure (responseChecks h hp) response with
    | Some reason => Invalid reason
    | None => Valid response
    end.
Proof.
  unfold validateMessageDetailsResponse, responseChecks, detailsChecks, firstFailure.
  cbv zeta.
  rewrite object_test, !nonEmptyString_test, !stringOrNull_test, string_test,
    !present_test, !validateAction_actionValidation, !ifPresent_guard.
  each_test; reflexivity.
Qed.

(** With title, snippet and category present, the two lists of checks fail
    at the same place. *)
Lemma checks_agree_when_present h hp response :
  isPresent (get hp response "title") = true ->
  isPresent (get hp response "snippet") = true ->
  isPresent (get hp response "category") = true ->
  firstFailure (responseChecks h hp) response
  = firstFailure (specChecks h hp) response.
Proof.
  intros Ht Hs Hc.
  cbv beta iota delta [firstFailure responseChecks specChecks detailsChecks].
  unfold ifPresent. rewrite Ht, Hs, Hc. reflexivity.
Qed.

(** What passes the checks of the validator passes those of section 4.3. *)
Lemma spec_checks_weaker h hp response :
  firstFailure (responseChecks h hp) response = None ->
  firstFailure (specChecks h hp) response = None.
Proof.
  cbv beta iota delta [firstFailure responseChecks specChecks detailsChecks].
  intros H.
  repeat match type of H with
         | (if ?c then _ else Some _) = None =>
             destruct c eqn:?; [|discriminate H]
         end.
  repeat match goal with
         | E : ?c = true |- context [?c] => rewrite E
         end.
  unfold ifPresent.
  repeat match goal with
         | E : ?c = true |- context [?c] => rewrite E
         end.
  now rewrite !orb_true_r.
Qed.

(** C8. [validateMessageDetailsResponse] runs nine checks in the order of
    the specification and stops at the first that fails, answering with
    that check's reason, which names the field; when none fails it answers
    with the input value itself.  The checks are those of section 4.3
    whenever title, snippet and category are present; an absent title,
    snippet or category fails its check, and nothing else separates the
    two lists: what the validator accepts passes the checks of 4.3. *)
Theorem validateMessageDetailsResponse_first_failure
    (h : Host) (hp : heap) (response : value) :
  validateMessageDetailsResponse h hp response
  = match firstFailure (responseChecks h hp) response with
    | Some reason => Invalid reason
    | None => Valid response
    end
  /\ (isPresent (get hp response "title") = true ->
      isPresent (get hp response "snippet") = true ->
      isPresent (get hp response "category") = true ->
      validateMessageDetailsResponse h hp response
      = match firstFailure (specChecks h hp) response with
        | Some reason => Invalid reason
        | None => Valid response
        end)
  /\ (validateMessageDetailsResponse h hp response = Valid response ->
      firstFailure (specChecks h hp) response = None)
  /\ List.map (fun c => fst (fst c)) (responseChecks h hp)
     = [ "Response"; "messageId"; "title"; "snippet"; "createdAt"; "bodyHtml";
         "category"; "primaryAction"; "secondaryAction" ]
  /\ List.map (fun c => (fst (fst c), snd c)) (specChecks h hp)
     = List.map (fun c => (fst (fst c), snd c)) (responseChecks h hp)
  /\ forallb (fun c => JS.includes (fst (fst c)) (snd c)) (responseChecks h hp)
     = true.
Proof.
  split; [apply validate_first_failure|].
  split.
  { intros Ht Hs Hc.
    rewrite <- (checks_agree_when_present h hp response Ht Hs Hc).
    apply validate_first_failure. }
  split; [|repeat split; reflexivity].
  intros Hv. apply spec_checks_weaker.
  rewrite validate_first_failure in Hv.
  destruct (firstFailure (responseChecks h hp) response); [discriminate Hv | reflexivity].
Qed.

(** A payload with its three text fields present: the validator gives the
    reason of the first check of section 4.3 that fails. *)
Lemma validateMessageDetailsResponse_first_failure_witness :
  validateMessageDetailsResponse server_host sample_heap (VObject 1%positive)
  = match firstFailure (specChecks server_host sample_heap) (VObject 1%positive) with
    | Some reason => Invalid reason
    | None => Valid (VObject 1%positive)
    end.
Proof.
  apply (proj1 (proj2 (validateMessageDetailsResponse_first_failure server_host
                         sample_heap (VObject 1%positive)))); reflexivity.
Defined.

(** A payload without a title passes the nine checks as section 4.3 words
    them, and the validator turns it down. *)
Lemma absent_title_passes_the_worded_checks :
  firstFailure
    (specChecks server_host
       (<[9%positive := delete "title" (sample_message 3%positive)]> sample_heap))
    (VObject 9%positive)
  = None
  /\ validateMessageDetailsResponse server_host
       (<[9%positive := delete "title" (sample_message 3%positive)]> sample_heap)
       (VObject 9%positive)
     = Invalid "title must be a string or null".
Proof. split; reflexivity. Qed.

(** An empty [messageId] is reported first, whatever else is wrong. *)
Example empty_messageId_reported_first :
  validateMessageDetailsResponse server_host
    (<[9%positive := list_to_map [ ("messageId", VString EmptyString);
                                   ("title", VNumber 7);
                                   ("primaryAction", VObject 2%positive) ]]>
       sample_heap)
    (VObject 9%positive)
  = Invalid "messageId must be a non-empty string".
Proof. reflexivity. Qed.

(** The title, snippet and category checks pass for a string or null only:
    a payload without the field is turned down. *)
Example absent_title_rejected :
  validateMessageDetailsResponse server_host
    (<[9%positive := delete "title" (sample_message 3%positive)]> sample_heap)
    (VObject 9%positive)
  = Invalid "title must be a string or null".
Proof. reflexivity. Qed.

Example sample_message_rejected :
  validateMessageDetailsResponse server_host sample_heap (VObject 1%positive)
  = Invalid "primaryAction has invalid structure or unsafe URL".
Proof. reflexivity. Qed.

Example message_with_safe_link_valid :
  validateMessageDetailsResponse server_host
    (<[9%positive := sample_message 3%positive]> sample_heap) (VObject 9%positive)
  = Valid (VObject 9%positive).
Proof. reflexivity. Qed.

(** ** Stripping actions from a copy *)

Lemma validateAction_ext h (hp1 hp2 : heap) v :
  (forall key, get hp1 v key = get hp2 v key) ->
  validateAction h hp1 v = validateAction h hp2 v.
Proof.
  intros H. unfold validateAction, validateLinkAction, validateCallbackAction.
  cbv zeta. now rewrite !H.
Qed.

Lemma get_insert_fresh (hp : heap) (s a : loc) (o : gmap string value) key :
  hp !! s = None -> is_Some (hp !! a) ->
  get (<[s := o]> hp) (VObject a) key = get hp (VObject a) key.
Proof.
  intros Hs [x Ha]. unfold get, props.
  rewrite lookup_insert_ne; [reflexivity|]. intros ->. congruence.
Qed.

(** What the two tests of [sanitizeMessageDetailsResponse] see in a typed
    slot of the copy. *)
Lemma typed_slot_test h (hp : heap) (response s : loc) (o : gmap string value) key :
  hp !! s = None ->
  actionSlotTyped hp response key = true ->
  o !! key = props hp response !! key ->
  truthy (get (<[s := o]> hp) (VObject s) key)
  && negb (validateAction h (<[s := o]> hp) (get (<[s := o]> hp) (VObject s) key))
  = actionStripped h hp (props hp response) key.
Proof.
  intros Hs Ht Ho. unfold actionStripped, actionSlotTyped in *.
  assert (Hg : get (<[s := o]> hp) (VObject s) key
               = match props hp response !! key with
                 | Some x => x
                 | None => VUndefined
                 end).
  { unfold get at 1. unfold props at 1. rewrite lookup_insert_eq. now rewrite Ho. }
  rewrite Hg.
  destruct (props hp response !! key) as [[| | b | n | str | a]|];
    try discriminate Ht; try reflexivity.
  destruct (hp !! a) as [oa|] eqn:Ha; [|discriminate Ht].
  cbn [truthy andb]. f_equal. apply validateAction_ext.
  intros k. apply get_insert_fresh; [exact Hs | now rewrite Ha].
Qed.

Lemma sanitizeMessageDetailsResponse_eq h (hp : heap) (response : loc) :
  actionSlotTyped hp response "primaryAction" = true ->
  actionSlotTyped hp response "secondaryAction" = true ->
  let o := props hp response in
  let o1 := if actionStripped h hp o "primaryAction"
            then delete "primaryAction" o else o in
  let o2 := if actionStripped h hp o "secondaryAction"
            then delete "secondaryAction" o1 else o1 in
  sanitizeMessageDetailsResponse h hp response
  = (<[fresh (dom hp) := o2]> hp, fresh (dom hp)).
Proof.
  intros Hp Hs o o1 o2.
  assert (Hfresh : hp !! fresh (dom hp) = None).
  { apply not_elem_of_dom, is_fresh. }
  unfold sanitizeMessageDetailsResponse, spread. cbv zeta.
  set (s := fresh (dom hp)) in *. fold o.
  rewrite (typed_slot_test h hp response s o "primaryAction" Hfresh Hp eq_refl).
  fold o.
  assert (E1 : (if actionStripped h hp o "primaryAction"
                then deleteProp (<[s := o]> hp) s "primaryAction"
                else <[s := o]> hp) = <[s := o1]> hp).
  { unfold o1, deleteProp, props.
    destruct (actionStripped h hp o "primaryAction"); [|reflexivity].
    now rewrite lookup_insert_eq, insert_insert_eq. }
  rewrite E1.
  assert (Ho1 : o1 !! "secondaryAction" = props hp response !! "secondaryAction").
  { unfold o1. destruct (actionStripped h hp o "primaryAction"); [|reflexivity].
    now rewrite lookup_delete_ne. }
  rewrite (typed_slot_test h hp response s o1 "secondaryAction" Hfresh Hs Ho1).
  fold o. f_equal. unfold o2, deleteProp, props.
  destruct (actionStripped h hp o "secondaryAction"); [|reflexivity].
  now rewrite lookup_insert_eq, insert_insert_eq.
Qed.

(** C9. On a typed record, [sanitizeMessageDetailsResponse] allocates a new
    object and leaves every object that existed as it was; the new object
    has the fields of the record, with the same values, except that each of
    the two action slots is gone exactly when it was present and failed
    action validation. *)
Theorem sanitizeMessageDetailsResponse_copy (h : Host) (hp : heap) (response : loc) :
  actionSlotTyped hp response "primaryAction" = true ->
  actionSlotTyped hp response "secondaryAction" = true ->
  let result := sanitizeMessageDetailsResponse h hp response in
  hp !! snd result = None
  /\ (forall l : loc, l <> snd result -> fst result !! l = hp !! l)
  /\ (forall key : string,
        props (fst result) (snd result) !! key
        = if isActionSlot key && actionStripped h hp (props hp response) key
          then None
          else props hp response !! key).
Proof.
  intros Hp Hs. cbv zeta.
  rewrite (sanitizeMessageDetailsResponse_eq h hp response Hp Hs). cbn [fst snd].
  split; [apply not_elem_of_dom, is_fresh|]. split.
  - intros l Hl. now rewrite lookup_insert_ne.
  - intros key. unfold props at 1. rewrite lookup_insert_eq.
    unfold isActionSlot.
    destruct (String.eqb key "primaryAction") eqn:Ek.
    { apply String.eqb_eq in Ek. subst key. cbn [orb andb].
      destruct (actionStripped h hp (props hp response) "primaryAction");
        destruct (actionStripped h hp (props hp response) "secondaryAction");
        rewrite ?lookup_delete_ne by discriminate;
        rewrite ?lookup_delete_eq; reflexivity. }
    destruct (String.eqb key "secondaryAction") eqn:Ek2.
    { apply String.eqb_eq in Ek2. subst key. cbn [orb andb].
      destruct (actionStripped h hp (props hp response) "primaryAction");
        destruct (actionStripped h hp (props hp response) "secondaryAction");
        rewrite ?lookup_delete_eq; rewrite ?lookup_delete_ne by discriminate;
        reflexivity. }
    apply String.eqb_neq in Ek, Ek2. cbn [orb andb].
    destruct (actionStripped h hp (props hp response) "primaryAction");
      destruct (actionStripped h hp (props hp response) "secondaryAction");
      rewrite ?lookup_delete_ne by congruence; reflexivity.
Qed.

Lemma sanitizeMessageDetailsResponse_copy_witness :
  actionSlotTyped sample_heap 1%positive "primaryAction" = true
  /\ sample_heap
       !! snd (sanitizeMessageDetailsResponse server_host sample_heap 1%positive)
     = None
  /\ fst (sanitizeMessageDetailsResponse server_host sample_heap 1%positive)
       !! 1%positive
     = sample_heap !! 1%positive
  /\ props (fst (sanitizeMessageDetailsResponse server_host sample_heap 1%positive))
        (snd (sanitizeMessageDetailsResponse server_host sample_heap 1%positive))
       !! "primaryAction"
     = None
  /\ props (fst (sanitizeMessageDetailsResponse server_host sample_heap 1%positive))
        (snd (sanitizeMessageDetailsResponse server_host sample_heap 1%positive))
       !! "bodyHtml"
     = Some (VString "<p>Hello World</p>").
Proof.
  destruct (sanitizeMessageDetailsResponse_copy server_host sample_heap 1%positive
              eq_refl eq_refl) as (Hfresh & Hold & Hnew).
  split; [reflexivity|]. split; [exact Hfresh|]. split.
  - apply Hold. vm_compute. discriminate.
  - split; [rewrite Hnew | rewrite Hnew]; reflexivity.
Defined.

(** Outside the record type: a slot holding null fails action validation,
    yet it is falsy and stays in the copy. *)
Example null_action_slot_kept :
  validateAction server_host
    (<[9%positive := <["primaryAction" := VNull]> (sample_message 3%positive)]>
       sample_heap) VNull = false
  /\ props
       (fst (sanitizeMessageDetailsResponse server_host
               (<[9%positive := <["primaryAction" := VNull]>
                                  (sample_message 3%positive)]> sample_heap)
               9%positive))
       (snd (sanitizeMessageDetailsResponse server_host
               (<[9%positive := <["primaryAction" := VNull]>
                                  (sample_message 3%positive)]> sample_heap)
               9%positive))
       !! "primaryAction"
     = Some VNull.
Proof. split; reflexivity. Qed.

(** ** Sets of strings in insertion order *)

Lemma has_In set x : JS.has set x = true <-> In x set.
Proof.
  unfold JS.has. rewrite existsb_exists. split.
  - intros (y & Hy & E). apply String.eqb_eq in E. now subst y.
  - intros H. exists x. split; [exact H | apply String.eqb_refl].
Qed.

Lemma has_notIn set x : JS.has set x = false <-> ~ In x set.
Proof.
  rewrite <- has_In. destruct (JS.has set x); split; congruence.
Qed.

Lemma setAdd_In set y x : In x (setAdd set y) <-> In x set \/ x = y.
Proof.
  unfold setAdd. destruct (JS.has set y) eqn:H.
  - apply has_In in H. split; [now left | intros [?| ->]; assumption].
  - rewrite in_app_iff. simpl. intuition congruence.
Qed.

Lemma setAdd_NoDup set y : NoDup set -> NoDup (setAdd set y).
Proof.
  intros Hs. unfold setAdd. destruct (JS.has set y) eqn:H; [exact Hs|].
  apply has_notIn in H. apply NoDup_app. split; [exact Hs|]. split.
  - intros x Hx Hy. apply list_elem_of_In in Hx, Hy. simpl in Hy.
    destruct Hy as [<-|[]]. contradiction.
  - apply NoDup_singleton.
Qed.


Lemma setAdd_Forall (P : string -> Prop) set y :
  Forall P set -> P y -> Forall P (setAdd set y).
Proof.
  intros Hs Hy. unfold setAdd. destruct (JS.has set y); [exact Hs|].
  apply Forall_app. split; [exact Hs | now constructor].
Qed.

Lemma fold_setAdd_In items set x :
  In x (fold_left setAdd items set) <-> In x set \/ In x items.
Proof.
  revert set. induction items as [|y items IH]; intros set; simpl.
  - intuition.
  - rewrite IH, setAdd_In. intuition congruence.
Qed.

Lemma fold_setAdd_NoDup items set :
  NoDup set -> NoDup (fold_left setAdd items set).
Proof.
  revert set. induction items as [|y items IH]; intros set Hs; simpl;
    [exact Hs | apply IH, setAdd_NoDup, Hs].
Qed.

Lemma fold_setAdd_Forall (P : string -> Prop) items set :
  Forall P set -> Forall P items -> Forall P (fold_left setAdd items set).
Proof.
  revert set. induction items as [|y items IH]; intros set Hs Hi; simpl;
    [exact Hs|].
  inversion Hi; subst. apply IH; [now apply setAdd_Forall | assumption].
Qed.

Lemma fold_setAdd_fresh items set :
  NoDup (set ++ items) -> fold_left setAdd items set = set ++ items.
Proof.
  revert set. induction items as [|y items IH]; intros set Hn; simpl.
  - now rewrite app_nil_r.
  - assert (Hy : ~ In y set).
    { apply NoDup_app in Hn as (_ & Hd & _). intros Hy.
      apply (Hd y); [now apply list_elem_of_In | apply list_elem_of_In; now left]. }
    unfold setAdd at 2. apply has_notIn in Hy. rewrite Hy.
    rewrite IH; rewrite <- app_assoc; [reflexivity | exact Hn].
Qed.

Lemma newSet_In items x : In x (newSet items) <-> In x items.
Proof. unfold newSet. rewrite fold_setAdd_In. simpl. intuition. Qed.

Lemma newSet_NoDup items : NoDup (newSet items).
Proof. apply fold_setAdd_NoDup. constructor. Qed.

Lemma newSet_fixed items : NoDup items -> newSet items = items.
Proof. intros H. unfold newSet. now rewrite fold_setAdd_fresh. Qed.

(** ** Tokens: splitting on white space and joining with a space *)

Lemma wsFree_app a b : wsFree (a +:+ b) = wsFree a && wsFree b.
Proof.
  unfold wsFree. induction a as [|c a IH]; [reflexivity|].
  rewrite app_cons. simpl. rewrite IH. now rewrite andb_assoc.
Qed.

Lemma splitWs_token x cur rest :
  wsFree x = true ->
  JS.splitWs cur false (x +:+ rest) = JS.splitWs (cur +:+ x) false rest.
Proof.
  revert cur. induction x as [|c x IH]; intros cur Hx.
  - now rewrite app_nil, app_empty_r.
  - unfold wsFree in Hx. simpl in Hx. apply andb_true_iff in Hx as [Hc Hx].
    apply negb_true_iff in Hc. rewrite app_cons. simpl. rewrite Hc.
    rewrite (IH _ Hx), app_assoc_str. reflexivity.
Qed.

Lemma splitWs_start x b rest :
  wsFree x = true -> x <> EmptyString ->
  JS.splitWs EmptyString b (x +:+ rest) = JS.splitWs x false rest.
Proof.
  intros Hx Hne. destruct x as [|c x]; [contradiction|].
  unfold wsFree in Hx. simpl in Hx. apply andb_true_iff in Hx as [Hc Hx].
  apply negb_true_iff in Hc. rewrite app_cons. simpl. rewrite Hc.
  now rewrite (splitWs_token x _ rest Hx).
Qed.

Lemma split_join tokens b :
  Forall isToken tokens -> tokens <> [] ->
  JS.splitWs EmptyString b (JS.join " " tokens) = tokens.
Proof.
  intros Ht. revert b. induction Ht as [|x rest [Hx Hne] Hrest IH]; intros b Hnil;
    [contradiction|].
  destruct rest as [|y rest].
  - simpl. rewrite <- (app_empty_r x) at 1.
    rewrite (splitWs_start x b EmptyString Hx Hne). reflexivity.
  - change (JS.join " " (x :: y :: rest)) with (x +:+ " " +:+ JS.join " " (y :: rest)).
    rewrite (splitWs_start x b _ Hx Hne).
    change (" " +:+ JS.join " " (y :: rest))
      with (String " " (JS.join " " (y :: rest))).
    cbn [JS.splitWs]. change (JS.isWhiteSpace " ") with true. cbv iota.
    f_equal. apply IH. discriminate.
Qed.

Lemma splitWs_pieces s cur b :
  wsFree cur = true -> Forall (fun x => wsFree x = true) (JS.splitWs cur b s).
Proof.
  revert cur b. induction s as [|c s IH]; intros cur b Hcur; simpl.
  - now constructor.
  - destruct (JS.isWhiteSpace c) eqn:Hc.
    + destruct b; [now apply IH | constructor; [exact Hcur | now apply IH]].
    + apply IH. rewrite wsFree_app, Hcur. unfold wsFree. simpl. now rewrite Hc.
Qed.

Lemma trimStart_wsFree s : wsFree s = true -> JS.trimStart s = s.
Proof.
  destruct s as [|c s]; [reflexivity|]. unfold wsFree. simpl.
  intros H. apply andb_true_iff in H as [Hc _]. apply negb_true_iff in Hc.
  now rewrite Hc.
Qed.

Lemma trimEnd_wsFree s : wsFree s = true -> JS.trimEnd s = s.
Proof.
  induction s as [|c s IH]; [reflexivity|]. unfold wsFree. simpl.
  intros H. apply andb_true_iff in H as [Hc Hs]. apply negb_true_iff in Hc.
  rewrite (IH Hs). destruct s; [now rewrite Hc | reflexivity].
Qed.

Lemma trim_wsFree s : wsFree s = true -> JS.trim s = s.
Proof.
  intros H. unfold JS.trim. now rewrite (trimStart_wsFree s H), (trimEnd_wsFree s H).
Qed.

Lemma nonEmpty_true s : nonEmpty s = true <-> s <> EmptyString.
Proof.
  unfold nonEmpty. rewrite negb_true_iff. split.
  - intros H ->. discriminate H.
  - intros H. apply String.eqb_neq. exact H.
Qed.

Lemma relTokensOf_tokens rel : Forall isToken (relTokensOf rel).
Proof.
  unfold relTokensOf, JS.split_whitespace.
  pose proof (splitWs_pieces rel EmptyString false eq_refl) as Hp.
  induction Hp as [|x l Hx Hl IH]; simpl; [constructor|].
  rewrite (trim_wsFree x Hx). destruct (nonEmpty x) eqn:Hn; [|exact IH].
  constructor; [|exact IH]. split; [exact Hx | now apply nonEmpty_true].
Qed.

Lemma relTokensOf_join tokens :
  Forall isToken tokens -> tokens <> [] ->
  relTokensOf (JS.join " " tokens) = tokens.
Proof.
  intros Ht Hne. unfold relTokensOf, JS.split_whitespace.
  rewrite (split_join tokens false Ht Hne).
  induction Ht as [|x l [Hx Hn] Hl IH]; [reflexivity|].
  simpl. rewrite (trim_wsFree x Hx). apply nonEmpty_true in Hn. rewrite Hn.
  f_equal. destruct l as [|y l]; [reflexivity|]. apply IH. discriminate.
Qed.

(** ** Attribute lists *)

Lemma findAttr_putAttr_same n v l : Dom.findAttr n (Dom.putAttr n v l) = Some v.
Proof.
  induction l as [|[m w] l IH]; simpl.
  - now rewrite String.eqb_refl.
  - destruct (String.eqb m n) eqn:E; simpl; rewrite E; [reflexivity | exact IH].
Qed.


Lemma findAttr_dropAttr_other n m l :
  n <> m -> Dom.findAttr m (Dom.dropAttr n l) = Dom.findAttr m l.
Proof.
  intros Hne. induction l as [|[k w] l IH]; simpl; [reflexivity|].
  destruct (String.eqb k n) eqn:E; simpl.
  - apply String.eqb_eq in E. subst k. apply String.eqb_neq in Hne. now rewrite Hne.
  - destruct (String.eqb k m); [reflexivity | exact IH].
Qed.







Lemma uniqueNames_NoDup names : uniqueNames names = true <-> NoDup names.
Proof.
  induction names as [|n names IH]; simpl.
  - split; [constructor | reflexivity].
  - rewrite andb_true_iff, negb_true_iff, has_notIn, IH, NoDup_cons.
    now rewrite list_elem_of_In.
Qed.

(** ** The attribute loop *)

Lemma isAllowedAttr_spec tagName name :
  isAllowedAttr tagName name
  = JS.has globalAllowlist name || JS.startsWith "data-" name
    || JS.has (tagAllowlist tagName) name.
Proof.
  unfold isAllowedAttr, tagAllowlist.
  change (tableLookup "*" ALLOWED_ATTRS) with (Some globalAllowlist).
  destruct (JS.has globalAllowlist name); [reflexivity|].
  destruct (JS.startsWith "data-" name); [reflexivity|].
  destruct (tableLookup tagName ALLOWED_ATTRS); [|reflexivity].
  now destruct (JS.has l name).
Qed.

Lemma sanitizeAttributes_step h tagName n v rest current :
  sanitizeAttributes h tagName ((n, v) :: rest) current
  = sanitizeAttributes h tagName rest
      (if attributeRemoved h tagName n v
       then Dom.removeAttribute current n else current).
Proof.
  cbn [sanitizeAttributes]. unfold attributeRemoved. cbv zeta.
  rewrite isAllowedAttr_spec.
  destruct (JS.startsWith "on" (JS.toLowerCase n)); [reflexivity|].
  destruct (String.eqb (JS.toLowerCase n) "style"); [reflexivity|].
  cbn [orb].
  destruct (negb (JS.has globalAllowlist _ || _ || _)); [reflexivity|].
  cbn [orb]. now destruct (_ && negb (isSafeUrl h v)).
Qed.



(** ** Hardening of links *)

Lemma blank_is_nonEmpty t :
  String.eqb (JS.toLowerCase t) "_blank" = true -> nonEmpty t = true.
Proof. destruct t; [discriminate | reflexivity]. Qed.

Lemma hardenLink_cases tagName current :
  hardenLink tagName current
  = if String.eqb tagName "a" && isBlankTarget current
    then Dom.putAttr "rel" (hardenedRel (relOf current)) current
    else current.
Proof.
  unfold hardenLink, isBlankTarget, hardenedRel, relOf.
  destruct (String.eqb tagName "a"); [|reflexivity]. cbn [andb].
  destruct (Dom.getAttribute current "target") as [t|]; [|reflexivity].
  destruct (String.eqb (JS.toLowerCase t) "_blank") eqn:E.
  - rewrite (blank_is_nonEmpty t E). reflexivity.
  - now rewrite andb_false_r.
Qed.

Lemma hardened_tokens rel :
  let tokens := setAdd (setAdd (newSet (relTokensOf rel)) "noopener") "noreferrer" in
  relTokensOf (hardenedRel rel) = tokens
  /\ In "noopener" tokens /\ In "noreferrer" tokens /\ NoDup tokens
  /\ (forall token, In token (relTokensOf rel) -> In token tokens).
Proof.
  cbv zeta. split; [|split; [|split; [|split]]].
  - unfold hardenedRel. apply relTokensOf_join.
    + repeat apply setAdd_Forall; try (split; [reflexivity | discriminate]).
      apply fold_setAdd_Forall; [constructor | apply relTokensOf_tokens].
    + intros E. assert (Hin : In "noreferrer"
        (setAdd (setAdd (newSet (relTokensOf rel)) "noopener") "noreferrer")).
      { apply setAdd_In. now right. }
      rewrite E in Hin. contradiction.
  - apply setAdd_In. left. apply setAdd_In. now right.
  - apply setAdd_In. now right.
  - repeat apply setAdd_NoDup. apply newSet_NoDup.
  - intros token Hin. apply setAdd_In. left. apply setAdd_In. left.
    now apply newSet_In.
Qed.






(** ** C4 and C3 *)

(** C4. Among the children that [sanitizeElement] walks, an element whose
    tag is not allowed gives way, in its place, to one text node holding its
    text content; the nodes before and after it come out as they would
    without it, and nothing is done to what was inside it.  The children of
    an element that is kept are walked in the same way. *)
Theorem disallowed_element_becomes_text (h : Host) (localName : string)
    (attrs : list (string * string)) (kids before after : list Dom.node) :
  isAllowedTag localName = false ->
  sanitizeElement h (before ++ Dom.Element localName attrs kids :: after)
  = sanitizeElement h before
    ++ Dom.Text (Dom.textContent (Dom.Element localName attrs kids))
    :: sanitizeElement h after
  /\ (forall parent pattrs, isAllowedTag parent = true ->
        exists out,
          sanitizeChild h (Dom.Element parent pattrs
                             (before ++ Dom.Element localName attrs kids :: after))
          = Dom.Element parent out
              (sanitizeElement h before
               ++ Dom.Text (Dom.textContent (Dom.Element localName attrs kids))
               :: sanitizeElement h after)).
Proof.
  intros Htag.
  assert (E : sanitizeElement h (before ++ Dom.Element localName attrs kids :: after)
              = sanitizeElement h before
                ++ Dom.Text (Dom.textContent (Dom.Element localName attrs kids))
                :: sanitizeElement h after).
  { unfold sanitizeElement. rewrite List.map_app. cbn [List.map]. f_equal. f_equal.
    unfold isAllowedTag in Htag. cbn [sanitizeChild]. now rewrite Htag. }
  split; [exact E|].
  intros parent pattrs Hp. unfold isAllowedTag in Hp. cbn [sanitizeChild].
  rewrite Hp. cbn [negb]. eexists. f_equal. exact E.
Qed.

Lemma disallowed_element_becomes_text_witness :
  sanitizeElement server_host
    [ Dom.Element "p" [] [ Dom.Text "Hello" ];
      Dom.Element "script" [] [ Dom.Text "alert(1)" ];
      Dom.Text "!" ]
  = [ Dom.Element "p" [] [ Dom.Text "Hello" ]; Dom.Text "alert(1)"; Dom.Text "!" ].
Proof.
  exact (proj1 (disallowed_element_becomes_text server_host "script" []
                  [ Dom.Text "alert(1)" ]
                  [ Dom.Element "p" [] [ Dom.Text "Hello" ] ] [ Dom.Text "!" ]
                  eq_refl)).
Defined.

(** Nested disallowed structure collapses to its text. *)
Example nested_disallowed_collapses :
  sanitizeElement server_host
    [ Dom.Element "svg" [("onload", "alert(1)")]
        [ Dom.Element "a" [("href", "javascript:alert(1)")] [ Dom.Text "click" ];
          Dom.Comment "c";
          Dom.Element "script" [] [ Dom.Text "alert(1)" ] ] ]
  = [ Dom.Text "clickalert(1)" ].
Proof. reflexivity. Qed.




Example unsafe_href_removed_element_kept :
  sanitizeElement server_host
    [ Dom.Element "a" [ ("href", "javascript:alert(1)"); ("title", "t") ]
        [ Dom.Text "Click" ];
      Dom.Element "img" [ ("src", "https://example.com/img.png"); ("onerror", "x");
                          ("data-id", "7"); ("srcset", "x") ] [] ]
  = [ Dom.Element "a" [ ("title", "t") ] [ Dom.Text "Click" ];
      Dom.Element "img" [ ("src", "https://example.com/img.png"); ("data-id", "7") ] [] ].
Proof. reflexivity. Qed.

(** ** Induction over the tree, and the elements of the output *)

Lemma node_induction (P : Dom.node -> Prop) :
  (forall d, P (Dom.Text d)) ->
  (forall d, P (Dom.Comment d)) ->
  (forall name attrs kids, Forall P kids -> P (Dom.Element name attrs kids)) ->
  forall n, P n.
Proof.
  intros Ht Hc He. fix self 1. intros [d | d | name attrs kids].
  - apply Ht.
  - apply Hc.
  - apply He. induction kids as [|k kids IH]; constructor; [apply self | exact IH].
Qed.

Lemma sanitizeChild_allowed h name attrs kids :
  isAllowedTag name = true ->
  sanitizeChild h (Dom.Element name attrs kids)
  = Dom.Element name
      (hardenLink (JS.toLowerCase (Dom.tagName name))
         (sanitizeAttributes h (JS.toLowerCase (Dom.tagName name)) attrs attrs))
      (List.map (sanitizeChild h) kids).
Proof. unfold isAllowedTag. intros H. cbn [sanitizeChild]. now rewrite H. Qed.

Lemma sanitizeChild_disallowed h name attrs kids :
  isAllowedTag name = false ->
  sanitizeChild h (Dom.Element name attrs kids)
  = Dom.Text (Dom.textContent (Dom.Element name attrs kids)).
Proof. unfold isAllowedTag. intros H. cbn [sanitizeChild]. now rewrite H. Qed.

(** Every element of the output is the image of an element of the input
    whose tag is allowed. *)
Lemma output_elements h n e :
  In e (elementsOf (sanitizeChild h n)) ->
  exists name attrs kids,
    In (Dom.Element name attrs kids) (elementsOf n)
    /\ isAllowedTag name = true
    /\ e = sanitizeChild h (Dom.Element name attrs kids).
Proof.
  revert e. induction n as [d | d | name attrs kids IH] using node_induction;
    intros e Hin; try contradiction.
  destruct (isAllowedTag name) eqn:Htag.
  - rewrite (sanitizeChild_allowed h name attrs kids Htag) in Hin.
    cbn [elementsOf] in Hin. destruct Hin as [<-|Hin].
    + exists name, attrs, kids. split; [now left|]. split; [exact Htag|].
      now rewrite (sanitizeChild_allowed h name attrs kids Htag).
    + apply in_flat_map in Hin as (k' & Hk' & He).
      apply in_map_iff in Hk' as (k & <- & Hk).
      rewrite Forall_forall in IH.
      destruct (IH k (proj2 (list_elem_of_In _ _) Hk) e He)
        as (name' & attrs' & kids' & H1 & H2 & H3).
      exists name', attrs', kids'. split; [|now split].
      cbn [elementsOf]. right. apply in_flat_map. now exists k.
  - rewrite (sanitizeChild_disallowed h name attrs kids Htag) in Hin. contradiction.
Qed.

Lemma output_elements_doc h doc e :
  In e (flat_map elementsOf (sanitizeElement h doc)) ->
  exists name attrs kids,
    In (Dom.Element name attrs kids) (flat_map elementsOf doc)
    /\ isAllowedTag name = true
    /\ e = sanitizeChild h (Dom.Element name attrs kids).
Proof.
  intros Hin. apply in_flat_map in Hin as (k' & Hk' & He).
  unfold sanitizeElement in Hk'. apply in_map_iff in Hk' as (k & <- & Hk).
  destruct (output_elements h k e He) as (name & attrs & kids & H1 & H2 & H3).
  exists name, attrs, kids. split; [|now split]. apply in_flat_map. now exists k.
Qed.



(** ** Links keep their target and rel through the attribute loop *)

Lemma lower_agree_char c :
  JS.isAsciiLower (JS.asciiLowerChar c) = true ->
  JS.toLowerChar c = JS.asciiLowerChar c.
Proof. each_char c; vm_compute; intros H; first [reflexivity | discriminate H]. Qed.

Lemma lower_agree n s :
  JS.asciiLowercase n = s -> allChars JS.isAsciiLower s = true ->
  JS.toLowerCase n = s.
Proof.
  revert s. induction n as [|c n IH]; intros s <- Hs; [reflexivity|].
  cbn [JS.asciiLowercase JS.mapStr allChars] in Hs.
  apply andb_true_iff in Hs as [Hc Hs].
  unfold JS.toLowerCase, JS.asciiLowercase. cbn [JS.mapStr].
  rewrite (lower_agree_char c Hc). f_equal. now apply IH.
Qed.

Lemma anchor_keeps_target h n v :
  JS.asciiLowercase n = "target" -> attributeRemoved h "a" n v = false.
Proof.
  intros Hn. unfold attributeRemoved. cbv zeta.
  rewrite (lower_agree n "target" Hn eq_refl). reflexivity.
Qed.

Lemma anchor_keeps_rel h n v :
  JS.asciiLowercase n = "rel" -> attributeRemoved h "a" n v = false.
Proof.
  intros Hn. unfold attributeRemoved. cbv zeta.
  rewrite (lower_agree n "rel" Hn eq_refl). reflexivity.
Qed.

Lemma sanitizeAttributes_preserves h tagName name snapshot current :
  (forall n v, JS.asciiLowercase n = name -> attributeRemoved h tagName n v = false) ->
  Dom.findAttr name (sanitizeAttributes h tagName snapshot current)
  = Dom.findAttr name current.
Proof.
  intros Hkeep. revert current.
  induction snapshot as [|[n v] snapshot IH]; intros current; [reflexivity|].
  rewrite sanitizeAttributes_step, IH.
  destruct (attributeRemoved h tagName n v) eqn:Hr; [|reflexivity].
  unfold Dom.removeAttribute. apply findAttr_dropAttr_other.
  intros E. rewrite (Hkeep n v E) in Hr. discriminate Hr.
Qed.

Lemma anchor_is_allowed name : isAnchor name = true -> isAllowedTag name = true.
Proof.
  unfold isAnchor, isAllowedTag. intros H. apply String.eqb_eq in H. now rewrite H.
Qed.

(** C5. In the output, a link whose target is _blank, in any case, has a
    rel attribute whose tokens include noopener and noreferrer, none of them
    twice; it comes from a link of the input with the same target, and every
    token of that link's rel is still there. *)
Theorem blank_target_links_hardened (h : Host) (doc : list Dom.node)
    (name : string) (out : list (string * string)) (kids : list Dom.node) :
  In (Dom.Element name out kids) (flat_map elementsOf (sanitizeElement h doc)) ->
  isAnchor name = true ->
  isBlankTarget out = true ->
  (exists rel,
      Dom.getAttribute out "rel" = Some rel
      /\ In "noopener" (relTokensOf rel)
      /\ In "noreferrer" (relTokensOf rel)
      /\ NoDup (relTokensOf rel))
  /\ (exists attrs kids0,
        In (Dom.Element name attrs kids0) (flat_map elementsOf doc)
        /\ Dom.Element name out kids = sanitizeChild h (Dom.Element name attrs kids0)
        /\ isBlankTarget attrs = true
        /\ forall token,
             In token (relTokensOf (relOf attrs)) -> In token (relTokensOf (relOf out))).
Proof.
  intros Hin Ha Hb.
  destruct (output_elements_doc h doc _ Hin) as (name' & attrs & kids0 & Hsrc & Htag & He).
  rewrite (sanitizeChild_allowed h name' attrs kids0 Htag) in He.
  injection He as <- Hout Hkids.
  pose proof Ha as Htn. unfold isAnchor in Htn. apply String.eqb_eq in Htn.
  rewrite Htn in Hout. rewrite hardenLink_cases in Hout.
  cbn [String.eqb Ascii.eqb Bool.eqb andb] in Hout.
  set (cur := sanitizeAttributes h "a" attrs attrs) in *.
  assert (Htarget : isBlankTarget cur = isBlankTarget attrs).
  { unfold isBlankTarget, Dom.getAttribute, cur.
    change (JS.asciiLowercase "target") with "target".
    now rewrite (sanitizeAttributes_preserves h "a" _ attrs attrs (anchor_keeps_target h)). }
  assert (Hrel : relOf cur = relOf attrs).
  { unfold relOf, Dom.getAttribute, cur.
    change (JS.asciiLowercase "rel") with "rel".
    now rewrite (sanitizeAttributes_preserves h "a" _ attrs attrs (anchor_keeps_rel h)). }
  destruct (isBlankTarget cur) eqn:Hc.
  - assert (Hget : Dom.getAttribute out "rel" = Some (hardenedRel (relOf cur))).
    { rewrite Hout. unfold Dom.getAttribute. change (JS.asciiLowercase "rel") with "rel".
      apply findAttr_putAttr_same. }
    destruct (hardened_tokens (relOf cur)) as (Ht & Hno & Hnr & Hnd & Hsub).
    cbv zeta in *. split.
    + exists (hardenedRel (relOf cur)). rewrite Ht. now repeat split.
    + exists attrs, kids0. split; [exact Hsrc|]. split.
      * rewrite (sanitizeChild_allowed h name attrs kids0 Htag), Htn, hardenLink_cases.
        fold cur. rewrite Hc. cbn [String.eqb Ascii.eqb Bool.eqb andb].
        now rewrite <- Hout, Hkids.
      * split; [now rewrite <- Htarget|].
        intros token Htok. unfold relOf at 1. rewrite Hget. rewrite Ht.
        apply Hsub. now rewrite Hrel.
  - rewrite <- Hout in Hc. congruence.
Qed.

Lemma blank_target_links_hardened_witness :
  isBlankTarget [ ("target", "_blank"); ("rel", "external noopener noreferrer") ] = true
  /\ exists rel,
       Dom.getAttribute [ ("target", "_blank"); ("rel", "external noopener noreferrer") ]
         "rel" = Some rel
       /\ In "noopener" (relTokensOf rel)
       /\ In "noreferrer" (relTokensOf rel)
       /\ NoDup (relTokensOf rel).
Proof.
  split; [reflexivity|].
  refine (proj1 (blank_target_links_hardened server_host [ sample_anchor ] "a"
                   [ ("target", "_blank"); ("rel", "external noopener noreferrer") ]
                   [ Dom.Text "alert(1)"; Dom.Text "Click" ] _ eq_refl eq_refl)).
  left. reflexivity.
Defined.

Example rel_tokens_deduplicated :
  sanitizeElement server_host
    [ Dom.Element "a" [ ("target", "_BLANK");
                        ("rel", "noopener  external noopener") ] [] ]
  = [ Dom.Element "a" [ ("target", "_BLANK");
                        ("rel", "noopener external noreferrer") ] [] ].
Proof. reflexivity. Qed.

Example allowed_content_preserved :
  sanitizeElement server_host
    [ Dom.Element "blockquote" [ ("cite", "https://example.com") ] [ Dom.Text "Quote" ];
      Dom.Element "table" []
        [ Dom.Element "tr" []
            [ Dom.Element "td" [ ("colspan", "2"); ("rowspan", "3") ]
                [ Dom.Text "cell" ] ] ];
      Dom.Element "div" [ ("role", "button"); ("aria-label", "Click me");
                          ("data-testid", "test"); ("class", "c") ]
        [ Dom.Text "button" ] ]
  = [ Dom.Element "blockquote" [ ("cite", "https://example.com") ] [ Dom.Text "Quote" ];
      Dom.Element "table" []
        [ Dom.Element "tr" []
            [ Dom.Element "td" [ ("colspan", "2"); ("rowspan", "3") ]
                [ Dom.Text "cell" ] ] ];
      Dom.Element "div" [ ("role", "button"); ("aria-label", "Click me");
                          ("data-testid", "test"); ("class", "c") ]
        [ Dom.Text "button" ] ].
Proof. reflexivity. Qed.

Example self_target_not_hardened :
  sanitizeElement server_host
    [ Dom.Element "a" [ ("href", "https://example.com"); ("target", "_self") ] [] ]
  = [ Dom.Element "a" [ ("href", "https://example.com"); ("target", "_self") ] [] ].
Proof. reflexivity. Qed.

(** ** What the sanitized tree holds *)










(** The listed strings also survive in attribute values of kept elements. *)
Example listed_text_in_attribute_value :
  sanitizeElement server_host
    [ Dom.Element "p" [ ("title", "<script javascript: onclick=") ] [] ]
  = [ Dom.Element "p" [ ("title", "<script javascript: onclick=") ] [] ].
Proof. reflexivity. Qed.

(** ** Sanitizing twice *)


Lemma escape_entity c entity :
  ESCAPE_LOOKUP c = Some entity ->
  2 <= String.length entity /\ exists rest, entity = String "&" rest.
Proof.
  unfold ESCAPE_LOOKUP.
  repeat match goal with
         | |- (if ?b then _ else _) = _ -> _ =>
             destruct b; [intros [= <-]; split; [simpl; lia | eexists; reflexivity]|]
         end.
  discriminate.
Qed.

Lemma escapeHtml_length x : String.length x <= String.length (escapeHtml x).
Proof.
  induction x as [|c x IH]; [reflexivity|]. cbn [escapeHtml].
  destruct (ESCAPE_LOOKUP c) as [entity|] eqn:E.
  - destruct (escape_entity c entity E) as [Hl _].
    rewrite length_app_str. simpl. lia.
  - simpl. lia.
Qed.



Lemma filter_all {A} (f : A -> bool) l :
  (forall a, In a l -> f a = true) -> List.filter f l = l.
Proof.
  induction l as [|a l IH]; intros H; [reflexivity|]. simpl.
  rewrite (H a (or_introl eq_refl)). f_equal. apply IH. intros b Hb. apply H. now right.
Qed.













(** * Further properties *)

(** ** Actions: the two shapes *)

Lemma validateCallbackAction_spec hp action :
  validateCallbackAction hp action = true <-> CallbackActionShape hp action.
Proof.
  unfold validateCallbackAction. split.
  - intros H.
    destruct (negb _ || value_eqb action VNull) eqn:Hobj; [discriminate H|].
    destruct (value_eqb (get hp action "kind") (VString "callback")) eqn:Hkind;
      [|discriminate H].
    destruct (isNonEmptyString (get hp action "label")) eqn:Hlabel; [|discriminate H].
    destruct (isValidActionType (get hp action "type")) eqn:Htype; [|discriminate H].
    destruct (isNonEmptyString (get hp action "actionId")) eqn:Hid; [|discriminate H].
    cbn [negb] in H.
    destruct (negb (value_eqb (get hp action "id") VUndefined) && _) eqn:Hopt;
      [discriminate H|].
    constructor.
    + now apply nonnull_object_spec.
    + now apply value_eqb_true.
    + now apply isNonEmptyString_spec.
    + now apply isValidActionType_spec.
    + now apply isNonEmptyString_spec.
    + now apply optional_string_spec.
  - intros [Hobj Hkind Hlabel Htype Hid Hopt].
    apply nonnull_object_spec in Hobj. rewrite Hobj.
    apply value_eqb_true in Hkind. rewrite Hkind.
    apply isNonEmptyString_spec in Hlabel, Hid. rewrite Hlabel, Hid.
    apply isValidActionType_spec in Htype. rewrite Htype.
    apply optional_string_spec in Hopt. rewrite Hopt. reflexivity.
Qed.

Lemma validateAction_spec h hp v :
  validateAction h hp v = true
  <-> v = VUndefined \/ LinkActionShape h hp v \/ CallbackActionShape hp v.
Proof.
  unfold validateAction. destruct (value_eqb v VUndefined) eqn:Hu.
  - apply value_eqb_true in Hu. split; [now left | reflexivity].
  - apply value_eqb_false in Hu.
    rewrite orb_true_iff, validateLinkAction_spec, validateCallbackAction_spec.
    split; [intros [?|?]; auto | intros [?|[?|?]]; [contradiction | now left | now right]].
Qed.

(** [validateAction] accepts exactly: undefined, a link of the link shape, a
    callback of the callback shape; [validateCallbackAction] accepts exactly
    the callback shape, and no value has both shapes. *)
Theorem validateAction_accepts_the_two_shapes (h : Host) (hp : heap) (v : value) :
  (validateCallbackAction hp v = true <-> CallbackActionShape hp v)
  /\ (validateAction h hp v = true
      <-> v = VUndefined \/ LinkActionShape h hp v \/ CallbackActionShape hp v)
  /\ ~ (LinkActionShape h hp v /\ CallbackActionShape hp v)
  /\ validateAction h hp VNull = false.
Proof.
  split; [apply validateCallbackAction_spec|]. split; [apply validateAction_spec|].
  split; [|reflexivity].
  intros [Hl Hc]. pose proof (link_kind _ _ _ Hl) as H1.
  pose proof (callback_kind _ _ Hc) as H2. rewrite H1 in H2. discriminate H2.
Qed.

Lemma validateAction_accepts_the_two_shapes_witness :
  validateAction server_host valid_heap (VObject 3%positive) = true
  /\ CallbackActionShape valid_heap (VObject 3%positive).
Proof.
  split; [reflexivity|].
  apply (proj1 (validateAction_accepts_the_two_shapes server_host valid_heap
                  (VObject 3%positive))).
  reflexivity.
Defined.

(** ** The payloads the validator accepts *)

Lemma isStringOrNull_spec v : isStringOrNull v = true <-> isStringOrNullValue v.
Proof.
  unfold isStringOrNullValue, isStringValue. split.
  - destruct v as [| | b | n | s | l]; intros H;
      try (vm_compute in H; discriminate H).
    + now left.
    + right. now exists s.
  - intros [-> | (s & ->)]; reflexivity.
Qed.

Lemma optional_action_check h hp v :
  negb (value_eqb v VUndefined) && negb (validateAction h hp v)
  = negb (validateAction h hp v).
Proof.
  unfold validateAction. now destruct (value_eqb v VUndefined).
Qed.

Lemma validate_accepts h hp response :
  validateMessageDetailsResponse h hp response = Valid response
  <-> AcceptedDetails h hp response.
Proof.
  unfold validateMessageDetailsResponse. cbv zeta. rewrite !optional_action_check.
  split.
  - intros H.
    destruct (negb _ || value_eqb response VNull) eqn:Hobj; [discriminate H|].
    destruct (isNonEmptyString (get hp response "messageId")) eqn:H1; [|discriminate H].
    destruct (isStringOrNull (get hp response "title")) eqn:H2; [|discriminate H].
    destruct (isStringOrNull (get hp response "snippet")) eqn:H3; [|discriminate H].
    destruct (isNonEmptyString (get hp response "createdAt")) eqn:H4; [|discriminate H].
    destruct (String.eqb (typeof (get hp response "bodyHtml")) "string") eqn:H5;
      [|discriminate H].
    destruct (isStringOrNull (get hp response "category")) eqn:H6; [|discriminate H].
    destruct (validateAction h hp (get hp response "primaryAction")) eqn:H7;
      [|discriminate H].
    destruct (validateAction h hp (get hp response "secondaryAction")) eqn:H8;
      [|discriminate H].
    constructor; try assumption.
    + now apply nonnull_object_spec.
    + now apply isNonEmptyString_spec.
    + now apply isStringOrNull_spec.
    + now apply isStringOrNull_spec.
    + now apply isNonEmptyString_spec.
    + now apply typeof_string.
    + now apply isStringOrNull_spec.
  - intros [Hobj H1 H2 H3 H4 H5 H6 H7 H8].
    apply nonnull_object_spec in Hobj. rewrite Hobj.
    apply isNonEmptyString_spec in H1, H4. rewrite H1, H4.
    apply isStringOrNull_spec in H2, H3, H6. rewrite H2, H3, H6.
    apply typeof_string in H5. rewrite H5, H7, H8. reflexivity.
Qed.

Lemma validate_valid_data h hp response data :
  validateMessageDetailsResponse h hp response = Valid data -> data = response.
Proof.
  unfold validateMessageDetailsResponse. cbv zeta.
  repeat match goal with
         | |- (if ?c then Invalid _ else _) = _ -> _ =>
             destruct c; [discriminate|]
         end.
  now intros [= <-].
Qed.

(** [validateMessageDetailsResponse] answers valid exactly for a non-null
    object whose messageId and createdAt are non-empty strings, whose
    bodyHtml is a string, whose title, snippet and category are each a
    string or null, and whose two action slots pass [validateAction]; the
    data it answers with is the value it was given. *)
Theorem validateMessageDetailsResponse_accepts (h : Host) (hp : heap)
    (response data : value) :
  (validateMessageDetailsResponse h hp response = Valid response
   <-> AcceptedDetails h hp response)
  /\ (validateMessageDetailsResponse h hp response = Valid data -> data = response).
Proof.
  split; [apply validate_accepts | apply validate_valid_data].
Qed.

Lemma validateMessageDetailsResponse_accepts_witness :
  validateMessageDetailsResponse server_host valid_heap (VObject 1%positive)
  = Valid (VObject 1%positive)
  /\ AcceptedDetails server_host valid_heap (VObject 1%positive).
Proof.
  split; [reflexivity|].
  apply (proj1 (proj1 (validateMessageDetailsResponse_accepts server_host valid_heap
                         (VObject 1%positive) (VObject 1%positive)))).
  reflexivity.
Defined.

(** A payload in which title, snippet or category is missing is turned
    down: these three fields must be present, as a string or as null. *)
Theorem missing_optional_field_rejected (h : Host) (hp : heap) (response : value)
    (key : string) :
  In key ["title"; "snippet"; "category"] ->
  get hp response key = VUndefined ->
  isInvalid (validateMessageDetailsResponse h hp response) = true.
Proof.
  intros Hkey Hget.
  destruct (validateMessageDetailsResponse h hp response) as [data|reason] eqn:Hv;
    [|reflexivity].
  exfalso. pose proof (validate_valid_data _ _ _ _ Hv) as ->.
  apply validate_accepts in Hv. destruct Hv as [_ _ Ht Hs _ _ Hc _ _].
  assert (Hno : ~ isStringOrNullValue VUndefined).
  { intros [H|[s H]]; discriminate H. }
  simpl in Hkey. destruct Hkey as [<-|[<-|[<-|[]]]]; rewrite Hget in *; contradiction.
Qed.

Lemma missing_optional_field_rejected_witness :
  isInvalid
    (validateMessageDetailsResponse server_host
       (<[9%positive := delete "snippet" (sample_message 3%positive)]> sample_heap)
       (VObject 9%positive)) = true.
Proof.
  apply (missing_optional_field_rejected server_host _ (VObject 9%positive) "snippet").
  - right. left. reflexivity.
  - reflexivity.
Defined.

(** ** Validating and stripping together *)

Lemma get_allocated (hp : heap) (a : loc) key s :
  get hp (VObject a) key = VString s -> is_Some (hp !! a).
Proof.
  unfold get, props. destruct (hp !! a) as [o|]; [now eexists|].
  rewrite lookup_empty. discriminate.
Qed.

Lemma valid_action_allocated h (hp : heap) (a : loc) :
  validateAction h hp (VObject a) = true -> is_Some (hp !! a).
Proof.
  intros H. apply validateAction_spec in H as [H|[H|H]]; [discriminate H| |].
  - exact (get_allocated hp a "kind" _ (link_kind _ _ _ H)).
  - exact (get_allocated hp a "kind" _ (callback_kind _ _ H)).
Qed.

(** A slot that passes [validateAction] is a typed slot and is kept. *)
Lemma valid_slot_typed h (hp : heap) (response : loc) key :
  validateAction h hp (get hp (VObject response) key) = true ->
  actionSlotTyped hp response key = true
  /\ actionStripped h hp (props hp response) key = false.
Proof.
  unfold get, actionSlotTyped, actionStripped.
  destruct (props hp response !! key) as [v|]; [|now split].
  intros H. rewrite H. split; [|reflexivity].
  destruct v as [| | b | n | s | a]; try reflexivity;
    try (vm_compute in H; discriminate H).
  destruct (valid_action_allocated h hp a H) as [o ->]. reflexivity.
Qed.

(** The fields of the copy, slot by slot. *)
Lemma sanitized_fields h (hp : heap) (response : loc) :
  actionSlotTyped hp response "primaryAction" = true ->
  actionSlotTyped hp response "secondaryAction" = true ->
  exists o2 : gmap string value,
    sanitizeMessageDetailsResponse h hp response = (<[fresh (dom hp) := o2]> hp, fresh (dom hp))
    /\ hp !! fresh (dom hp) = None
    /\ forall key,
         o2 !! key
         = if isActionSlot key && actionStripped h hp (props hp response) key
           then None else props hp response !! key.
Proof.
  intros Hp Hs.
  pose proof (sanitizeMessageDetailsResponse_eq h hp response Hp Hs) as Heq.
  cbv zeta in Heq. eexists. split; [exact Heq|].
  split; [apply not_elem_of_dom, is_fresh|].
  intros key. unfold isActionSlot.
  destruct (String.eqb key "primaryAction") eqn:Ek.
  { apply String.eqb_eq in Ek. subst key. cbn [orb andb].
    destruct (actionStripped h hp (props hp response) "primaryAction");
      destruct (actionStripped h hp (props hp response) "secondaryAction");
      rewrite ?lookup_delete_ne by discriminate;
      rewrite ?lookup_delete_eq; reflexivity. }
  destruct (String.eqb key "secondaryAction") eqn:Ek2.
  { apply String.eqb_eq in Ek2. subst key. cbn [orb andb].
    destruct (actionStripped h hp (props hp response) "primaryAction");
      destruct (actionStripped h hp (props hp response) "secondaryAction");
      rewrite ?lookup_delete_eq; rewrite ?lookup_delete_ne by discriminate;
      reflexivity. }
  apply String.eqb_neq in Ek, Ek2. cbn [orb andb].
  destruct (actionStripped h hp (props hp response) "primaryAction");
    destruct (actionStripped h hp (props hp response) "secondaryAction");
    rewrite ?lookup_delete_ne by congruence; reflexivity.
Qed.

(** What a slot of the copy holds: nothing, or the value of the record,
    which passes [validateAction] in the new heap as in the old. *)
Lemma sanitized_slot h (hp : heap) (response : loc) (o2 : gmap string value) key :
  actionSlotTyped hp response key = true ->
  hp !! fresh (dom hp) = None ->
  o2 !! key = (if actionStripped h hp (props hp response) key
               then None else props hp response !! key) ->
  let hp' := <[fresh (dom hp) := o2]> hp in
  let s := fresh (dom hp) in
  validateAction h hp' (get hp' (VObject s) key) = true
  /\ actionSlotTyped hp' s key = true
  /\ actionStripped h hp' (props hp' s) key = false.
Proof.
  intros Htyped Hfresh Hlook hp' s.
  assert (Hprops : props hp' s = o2).
  { unfold props, hp', s. now rewrite lookup_insert_eq. }
  unfold get, actionSlotTyped, actionStripped. rewrite Hprops, Hlook.
  unfold actionStripped in *. unfold actionSlotTyped in Htyped.
  destruct (props hp response !! key) as [v|]; [|now repeat split].
  destruct (validateAction h hp v) eqn:Hv; cbn [negb]; [|now repeat split].
  assert (Hv' : validateAction h hp' v = true).
  { destruct v as [| | b | n | str | a]; try discriminate Htyped; [reflexivity|].
    destruct (hp !! a) as [oa|] eqn:Ha; [|discriminate Htyped].
    rewrite <- Hv. apply validateAction_ext. intros k.
    apply get_insert_fresh; [exact Hfresh | now rewrite Ha]. }
  rewrite Hv'. split; [reflexivity|]. split; [|reflexivity].
  destruct v as [| | b | n | str | a]; try discriminate Htyped; [reflexivity|].
  destruct (hp !! a) as [oa|] eqn:Ha; [|discriminate Htyped].
  unfold hp'. rewrite lookup_insert_ne; [now rewrite Ha|].
  intros E. unfold s in *. congruence.
Qed.

(** A payload that [validateMessageDetailsResponse] accepts loses nothing in
    [sanitizeMessageDetailsResponse]: the copy has exactly its fields. *)
Theorem accepted_response_copied_whole (h : Host) (hp : heap) (response : loc) :
  validateMessageDetailsResponse h hp (VObject response) = Valid (VObject response) ->
  hp !! snd (sanitizeMessageDetailsResponse h hp response) = None
  /\ props (fst (sanitizeMessageDetailsResponse h hp response))
           (snd (sanitizeMessageDetailsResponse h hp response))
     = props hp response.
Proof.
  intros Hv. apply validate_accepts in Hv.
  destruct (valid_slot_typed h hp response "primaryAction" (accepted_primary _ _ _ Hv))
    as [Hp Hkp].
  destruct (valid_slot_typed h hp response "secondaryAction"
              (accepted_secondary _ _ _ Hv)) as [Hs Hks].
  rewrite (sanitizeMessageDetailsResponse_eq h hp response Hp Hs). cbn [fst snd].
  rewrite Hkp, Hks. split; [apply not_elem_of_dom, is_fresh|].
  unfold props at 1. now rewrite lookup_insert_eq.
Qed.

Lemma accepted_response_copied_whole_witness :
  props (fst (sanitizeMessageDetailsResponse server_host valid_heap 1%positive))
        (snd (sanitizeMessageDetailsResponse server_host valid_heap 1%positive))
  = props valid_heap 1%positive.
Proof.
  exact (proj2 (accepted_response_copied_whole server_host valid_heap 1%positive
                  eq_refl)).
Defined.

Lemma copied_field (hp : heap) (response : loc) (o2 : gmap string value) key :
  isActionSlot key = false ->
  o2 !! key = props hp response !! key ->
  get (<[fresh (dom hp) := o2]> hp) (VObject (fresh (dom hp))) key
  = get hp (VObject response) key.
Proof.
  intros _ Hlook. unfold get, props at 1. now rewrite lookup_insert_eq, Hlook.
Qed.

(** After [sanitizeMessageDetailsResponse], on a typed record, both action
    slots of the copy pass [validateAction], so the validator can turn the
    copy down only for one of the seven field checks, and then for the
    reason it gives for the record itself. *)
Theorem sanitized_copy_passes_action_checks (h : Host) (hp : heap) (response : loc) :
  actionSlotTyped hp response "primaryAction" = true ->
  actionSlotTyped hp response "secondaryAction" = true ->
  let hp' := fst (sanitizeMessageDetailsResponse h hp response) in
  let copy := VObject (snd (sanitizeMessageDetailsResponse h hp response)) in
  validateAction h hp' (get hp' copy "primaryAction") = true
  /\ validateAction h hp' (get hp' copy "secondaryAction") = true
  /\ validateMessageDetailsResponse h hp' copy
     = match firstFailure (firstn 7 (responseChecks h hp)) (VObject response) with
       | Some reason => Invalid reason
       | None => Valid copy
       end.
Proof.
  intros Hp Hs.
  destruct (sanitized_fields h hp response Hp Hs) as (o2 & Heq & Hfresh & Hlook).
  rewrite Heq. cbn [fst snd]. cbv zeta.
  destruct (sanitized_slot h hp response o2 "primaryAction" Hp Hfresh
              (Hlook "primaryAction")) as (Hvp & _ & _).
  destruct (sanitized_slot h hp response o2 "secondaryAction" Hs Hfresh
              (Hlook "secondaryAction")) as (Hvs & _ & _).
  cbv zeta in Hvp, Hvs. split; [exact Hvp|]. split; [exact Hvs|].
  unfold validateMessageDetailsResponse. cbv zeta.
  rewrite !optional_action_check, Hvp, Hvs.
  rewrite (copied_field hp response o2 "messageId" eq_refl (Hlook _)),
    (copied_field hp response o2 "title" eq_refl (Hlook _)),
    (copied_field hp response o2 "snippet" eq_refl (Hlook _)),
    (copied_field hp response o2 "createdAt" eq_refl (Hlook _)),
    (copied_field hp response o2 "bodyHtml" eq_refl (Hlook _)),
    (copied_field hp response o2 "category" eq_refl (Hlook _)).
  rewrite object_test, !nonEmptyString_test, !stringOrNull_test, string_test.
  unfold responseChecks, detailsChecks.
  cbn [firstn firstFailure isObjectValue negb]. cbv iota.
  each_test; reflexivity.
Qed.

Lemma sanitized_copy_passes_action_checks_witness :
  validateMessageDetailsResponse server_host
    (fst (sanitizeMessageDetailsResponse server_host sample_heap 1%positive))
    (VObject (snd (sanitizeMessageDetailsResponse server_host sample_heap 1%positive)))
  = Valid (VObject (snd (sanitizeMessageDetailsResponse server_host sample_heap
                           1%positive)))
  /\ isInvalid (validateMessageDetailsResponse server_host sample_heap
                  (VObject 1%positive)) = true.
Proof.
  split; [|reflexivity].
  exact (proj2 (proj2 (sanitized_copy_passes_action_checks server_host sample_heap
                         1%positive eq_refl eq_refl))).
Defined.

(** Stripping the copy again strips nothing: the second copy has the fields
    of the first, and the first is left as it is. *)
Theorem sanitizeMessageDetailsResponse_idempotent (h : Host) (hp : heap)
    (response : loc) :
  actionSlotTyped hp response "primaryAction" = true ->
  actionSlotTyped hp response "secondaryAction" = true ->
  let first := sanitizeMessageDetailsResponse h hp response in
  let second := sanitizeMessageDetailsResponse h (fst first) (snd first) in
  props (fst second) (snd second) = props (fst first) (snd first)
  /\ snd second <> snd first
  /\ fst second !! snd first = fst first !! snd first.
Proof.
  intros Hp Hs.
  destruct (sanitized_fields h hp response Hp Hs) as (o2 & Heq & Hfresh & Hlook).
  rewrite Heq. cbn [fst snd]. cbv zeta.
  destruct (sanitized_slot h hp response o2 "primaryAction" Hp Hfresh
              (Hlook "primaryAction")) as (_ & Htp & Hkp).
  destruct (sanitized_slot h hp response o2 "secondaryAction" Hs Hfresh
              (Hlook "secondaryAction")) as (_ & Hts & Hks).
  cbv zeta in Htp, Hkp, Hts, Hks.
  rewrite (sanitizeMessageDetailsResponse_eq h _ _ Htp Hts). cbn [fst snd].
  rewrite Hkp, Hks.
  assert (Hne : fresh (dom (<[fresh (dom hp) := o2]> hp)) <> fresh (dom hp)).
  { intros E. pose proof (is_fresh (dom (<[fresh (dom hp) := o2]> hp))) as Hf.
    rewrite E in Hf. apply Hf. apply elem_of_dom. rewrite lookup_insert_eq. now eexists. }
  split; [|split; [exact Hne|]].
  - unfold props at 1. now rewrite lookup_insert_eq.
  - now rewrite lookup_insert_ne.
Qed.

Lemma sanitizeMessageDetailsResponse_idempotent_witness :
  props
    (fst (sanitizeMessageDetailsResponse server_host
            (fst (sanitizeMessageDetailsResponse server_host sample_heap 1%positive))
            (snd (sanitizeMessageDetailsResponse server_host sample_heap 1%positive))))
    (snd (sanitizeMessageDetailsResponse server_host
            (fst (sanitizeMessageDetailsResponse server_host sample_heap 1%positive))
            (snd (sanitizeMessageDetailsResponse server_host sample_heap 1%positive))))
  = props (fst (sanitizeMessageDetailsResponse server_host sample_heap 1%positive))
          (snd (sanitizeMessageDetailsResponse server_host sample_heap 1%positive)).
Proof.
  exact (proj1 (sanitizeMessageDetailsResponse_idempotent server_host sample_heap
                  1%positive eq_refl eq_refl)).
Defined.

(** ** The validated URL is the trimmed input *)

Lemma trimEnd_keeps_head c r :
  JS.isWhiteSpace c = false -> exists r', JS.trimEnd (String c r) = String c r'.
Proof.
  intros Hc. simpl. destruct (JS.trimEnd r) as [|d r'].
  - rewrite Hc. now exists EmptyString.
  - now exists (String d r').
Qed.

Lemma trimEnd_idempotent s : JS.trimEnd (JS.trimEnd s) = JS.trimEnd s.
Proof.
  induction s as [|c s IH]; [reflexivity|]. cbn [JS.trimEnd].
  destruct (JS.trimEnd s) as [|d t] eqn:Ht.
  - destruct (JS.isWhiteSpace c) eqn:Hc; [reflexivity|].
    cbn [JS.trimEnd]. now rewrite Hc.
  - cbn [JS.trimEnd]. cbn [JS.trimEnd] in IH. rewrite IH. reflexivity.
Qed.

Lemma trimStart_head s :
  JS.trimStart s = EmptyString
  \/ exists c r, JS.trimStart s = String c r /\ JS.isWhiteSpace c = false.
Proof.
  induction s as [|c s IH]; [now left|]. cbn [JS.trimStart].
  destruct (JS.isWhiteSpace c) eqn:Hc; [exact IH|]. right. now exists c, s.
Qed.

Lemma trim_idempotent s : JS.trim (JS.trim s) = JS.trim s.
Proof.
  unfold JS.trim. destruct (trimStart_head s) as [->|(c & r & -> & Hc)];
    [reflexivity|].
  destruct (trimEnd_keeps_head c r Hc) as [r' Hr]. rewrite Hr.
  cbn [JS.trimStart]. rewrite Hc. rewrite <- Hr. apply trimEnd_idempotent.
Qed.

Lemma normalizeSafeUrl_result h raw v :
  normalizeSafeUrl h raw = Some v -> v = JS.trim raw /\ v <> EmptyString.
Proof.
  unfold normalizeSafeUrl. cbv zeta.
  destruct (String.eqb (JS.trim raw) EmptyString) eqn:E; [discriminate|].
  apply String.eqb_neq in E.
  destruct (JS.startsWith "#" (JS.trim raw)); [intros [= <-]; now split|].
  destruct (Url.protocol h _ _) as [p|]; [|discriminate].
  destruct (negb (JS.has SAFE_PROTOCOLS p)); [discriminate|].
  intros [= <-]. now split.
Qed.

Lemma normalizeSafeUrl_trim h raw :
  normalizeSafeUrl h (JS.trim raw) = normalizeSafeUrl h raw.
Proof. unfold normalizeSafeUrl. cbv zeta. now rewrite trim_idempotent. Qed.

(** White space around the input does not count, and what
    [normalizeSafeUrl] returns is the trimmed input, never empty, and is
    returned again when it is validated again. *)
Theorem normalizeSafeUrl_fixed_point (h : Host) (raw v : string) :
  normalizeSafeUrl h (JS.trim raw) = normalizeSafeUrl h raw
  /\ isSafeUrl h (JS.trim raw) = isSafeUrl h raw
  /\ (normalizeSafeUrl h raw = Some v ->
      v = JS.trim raw /\ v <> EmptyString /\ JS.trim v = v
      /\ normalizeSafeUrl h v = Some v).
Proof.
  split; [apply normalizeSafeUrl_trim|]. split.
  - unfold isSafeUrl. now rewrite normalizeSafeUrl_trim.
  - intros Hv. destruct (normalizeSafeUrl_result h raw v Hv) as [-> Hne].
    split; [reflexivity|]. split; [exact Hne|]. split; [apply trim_idempotent|].
    now rewrite normalizeSafeUrl_trim.
Qed.

Lemma normalizeSafeUrl_fixed_point_witness :
  normalizeSafeUrl server_host "  mailto:test@example.com  "
  = Some "mailto:test@example.com"
  /\ normalizeSafeUrl server_host "mailto:test@example.com"
     = Some "mailto:test@example.com".
Proof.
  split; [reflexivity|].
  exact (proj2 (proj2 (proj2 (proj2 (proj2
    (normalizeSafeUrl_fixed_point server_host "  mailto:test@example.com  "
       "mailto:test@example.com")) eq_refl)))).
Defined.

(** ** Navigation *)

(** [safeNavigate] does nothing without a window or when the validator
    rejects the href; otherwise it navigates once, to the validated url:
    in place when the target is absent or _self, and else in a new context
    opened with noopener and noreferrer, whose opener it clears when it gets a
    handle. *)
Theorem safeNavigate_effects (h : Host) (opened : bool) (href : string)
    (target : option string) :
  (window_location h = None -> safeNavigate h opened href target = [])
  /\ (normalizeSafeUrl h href = None -> safeNavigate h opened href target = [])
  /\ (forall url, window_location h <> None -> normalizeSafeUrl h href = Some url ->
        safeNavigate h opened href target
        = match target with
          | None => [LocationAssign url]
          | Some t =>
              if String.eqb t "_self" then [LocationAssign url]
              else WindowOpen url t "noopener,noreferrer"
                   :: (if opened then [OpenerCleared] else [])
          end)
  /\ (forall e url, In e (safeNavigate h opened href target) ->
        navigatedUrl e = Some url ->
        normalizeSafeUrl h href = Some url /\ url = JS.trim href).
Proof.
  unfold safeNavigate. split; [now intros ->|]. split.
  { intros ->. now destruct (window_location h). }
  split.
  - intros url Hw Hn. destruct (window_location h); [|contradiction].
    rewrite Hn. destruct (normalizeSafeUrl_result h href url Hn) as [_ Hne].
    apply String.eqb_neq in Hne. rewrite Hne. now destruct target.
  - intros e url Hin He. destruct (window_location h); [|contradiction].
    destruct (normalizeSafeUrl h href) as [u|] eqn:Hn; [|contradiction].
    destruct (normalizeSafeUrl_result h href u Hn) as [Hu _].
    destruct (String.eqb u EmptyString); [contradiction|].
    destruct (String.eqb _ "_self").
    + destruct Hin as [<-|[]]. injection He as <-. now split.
    + destruct Hin as [<-|Hin]; [injection He as <-; now split|].
      destruct opened; [|contradiction]. destruct Hin as [<-|[]]. discriminate He.
Qed.

Lemma safeNavigate_effects_witness :
  safeNavigate web_page_host false " https://example.com/a " (Some "_blank")
  = [ WindowOpen "https://example.com/a" "_blank" "noopener,noreferrer" ].
Proof.
  exact (proj1 (proj2 (proj2 (safeNavigate_effects web_page_host false
                                " https://example.com/a " (Some "_blank"))))
           "https://example.com/a" ltac:(discriminate) eq_refl).
Defined.

(** A url whose scheme is off the allow-list is never navigated to. *)
Theorem safeNavigate_refuses_scheme (h : Host) (opened : bool) (href scheme : string)
    (target : option string) :
  urlScheme href = Some scheme ->
  JS.has SAFE_PROTOCOLS (scheme +:+ ":") = false ->
  safeNavigate h opened href target = [].
Proof.
  intros Hs Hoff.
  destruct (scheme_off_allowlist_unsafe h href scheme Hs Hoff) as [Hn _].
  unfold safeNavigate. rewrite Hn. now destruct (window_location h).
Qed.

Lemma safeNavigate_refuses_scheme_witness :
  safeNavigate web_page_host true "JavaScript:alert(1)" (Some "_blank") = [].
Proof.
  exact (safeNavigate_refuses_scheme web_page_host true "JavaScript:alert(1)"
           "javascript" (Some "_blank") eq_refl eq_refl).
Defined.

(** In a window, a link action that passed validation always navigates
    when [safeNavigate] is given its href and target: to the trimmed href. *)
Theorem validated_link_navigates (h : Host) (hp : heap) (opened : bool)
    (action : value) (href : string) :
  validateLinkAction h hp action = true ->
  get hp action "href" = VString href ->
  window_location h <> None ->
  exists e rest,
    safeNavigate h opened href (targetArgument (get hp action "target")) = e :: rest
    /\ navigatedUrl e = Some (JS.trim href)
    /\ (rest = [] \/ rest = [OpenerCleared]).
Proof.
  intros Hv Hh Hw. apply validateLinkAction_spec in Hv.
  destruct (link_href _ _ _ Hv) as (href' & Hh' & _ & Hsafe).
  rewrite Hh in Hh'. injection Hh' as <-.
  unfold isSafeUrl in Hsafe.
  destruct (normalizeSafeUrl h href) as [url|] eqn:Hn; [|discriminate Hsafe].
  destruct (normalizeSafeUrl_result h href url Hn) as [-> Hne].
  unfold safeNavigate. destruct (window_location h); [|contradiction].
  rewrite Hn. apply String.eqb_neq in Hne. rewrite Hne.
  destruct (String.eqb _ "_self").
  - eexists _, _. split; [reflexivity|]. split; [reflexivity | now left].
  - eexists _, _. split; [reflexivity|]. split; [reflexivity|].
    destruct opened; [now right | now left].
Qed.

Lemma validated_link_navigates_witness :
  exists e rest,
    safeNavigate web_page_host false "https://safe.example.com"
      (targetArgument (get sample_heap (VObject 3%positive) "target")) = e :: rest
    /\ navigatedUrl e = Some (JS.trim "https://safe.example.com")
    /\ (rest = [] \/ rest = [OpenerCleared]).
Proof.
  apply (validated_link_navigates web_page_host sample_heap false (VObject 3%positive)
           "https://safe.example.com"); [reflexivity | reflexivity | discriminate].
Defined.

(** ** Text is kept *)

Lemma textContent_element name attrs kids :
  Dom.textContent (Dom.Element name attrs kids) = textContentAll kids.
Proof.
  cbn [Dom.textContent]. induction kids as [|k kids IH]; [reflexivity|].
  cbn [textContentAll]. now rewrite <- IH.
Qed.

Lemma sanitizeChild_textContent h n :
  Dom.textContent (sanitizeChild h n) = Dom.textContent n.
Proof.
  induction n as [d | d | name attrs kids IH] using node_induction;
    try reflexivity.
  destruct (isAllowedTag name) eqn:Htag.
  - rewrite (sanitizeChild_allowed h name attrs kids Htag), !textContent_element.
    induction IH as [|k kids Hk _ IHk]; [reflexivity|].
    cbn [List.map textContentAll]. now rewrite Hk, IHk.
  - rewrite (sanitizeChild_disallowed h name attrs kids Htag). reflexivity.
Qed.

(** Sanitizing loses and adds no text: the text content of what
    [sanitizeElement] returns is the text content of what it was given, and
    it returns as many child nodes as it was given. *)
Theorem sanitizeElement_keeps_text (h : Host) (doc : list Dom.node) :
  textContentAll (sanitizeElement h doc) = textContentAll doc
  /\ length (sanitizeElement h doc) = length doc.
Proof.
  split.
  - unfold sanitizeElement. induction doc as [|n doc IH]; [reflexivity|].
    cbn [List.map textContentAll]. now rewrite sanitizeChild_textContent, IH.
  - unfold sanitizeElement. apply List.length_map.
Qed.

(** ** Benign markup *)







(** ** Markup that is returned as it is *)



(** A rel with both tokens and a doubled space is not settled: the link is
    written again, with single spaces. *)
Example doubled_space_rel_rewritten :
  sanitizeElement server_host
    [ Dom.Element "a" [ ("href", "https://example.com"); ("target", "_blank");
                        ("rel", "noreferrer noopener  external") ]
        [ Dom.Text "world" ] ]
  = [ Dom.Element "a" [ ("href", "https://example.com"); ("target", "_blank");
                        ("rel", "noreferrer noopener external") ]
        [ Dom.Text "world" ] ].
Proof. reflexivity. Qed.

(** ** The allow-lists hold no event handler and no style *)

Lemma tagAllowlist_cases tagName name :
  JS.has (tagAllowlist tagName) name = true ->
  In name [ "href"; "target"; "rel"; "download"; "hreflang"; "type"; "src"; "alt";
            "width"; "height"; "loading"; "decoding"; "colspan"; "rowspan";
            "headers"; "scope"; "span"; "start"; "reversed"; "value"; "datetime";
            "cite"; "title"; "open"; "id"; "class"; "lang"; "dir"; "aria-label";
            "aria-labelledby"; "aria-describedby"; "aria-hidden"; "role";
            "tabindex"; "data-*" ].
Proof.
  unfold tagAllowlist, ALLOWED_ATTRS. cbn [tableLookup].
  repeat match goal with
         | |- JS.has (match (if ?b then _ else _) with _ => _ end) _ = true -> _ =>
             destruct b;
             [intros H; apply has_In in H; simpl in H |- *; intuition auto 40|]
         end.
  intros H. discriminate H.
Qed.

(** No name that [isAllowedAttr] lets through starts with "on" or is
    "style", for any tag: the two guards of the attribute loop remove
    nothing that the allow-lists would have kept. *)
Theorem allowlists_exclude_handlers_and_style (tagName name : string) :
  isAllowedAttr tagName name = true ->
  JS.startsWith "on" name = false /\ String.eqb name "style" = false.
Proof.
  rewrite isAllowedAttr_spec. intros H.
  apply orb_true_iff in H as [H|H]; [apply orb_true_iff in H as [H|H]|].
  - apply has_In in H. unfold globalAllowlist in H. simpl in H.
    repeat (destruct H as [<-|H]; [split; reflexivity|]). contradiction.
  - destruct name as [|c name]; [discriminate H|].
    cbn [JS.startsWith] in H. apply andb_true_iff in H as [Hc _].
    apply Ascii.eqb_eq in Hc. subst c. split; reflexivity.
  - apply tagAllowlist_cases in H. simpl in H.
    repeat (destruct H as [<-|H]; [split; reflexivity|]). contradiction.
Qed.

Lemma allowlists_exclude_handlers_and_style_witness :
  JS.startsWith "on" "data-onclick" = false
  /\ String.eqb "data-onclick" "style" = false.
Proof.
  exact (allowlists_exclude_handlers_and_style "div" "data-onclick" eq_refl).
Defined.

(** ** Escaping *)

Lemma escapeHtml_app a b : escapeHtml (a +:+ b) = escapeHtml a +:+ escapeHtml b.
Proof.
  induction a as [|c a IH]; [reflexivity|].
  rewrite app_cons. cbn [escapeHtml]. rewrite IH.
  destruct (ESCAPE_LOOKUP c); [now rewrite app_assoc_str | now rewrite app_cons].
Qed.

Lemma escape_entity_length c entity :
  ESCAPE_LOOKUP c = Some entity -> String.length entity <= 6.
Proof.
  unfold ESCAPE_LOOKUP.
  repeat match goal with
         | |- (if ?b then _ else _) = _ -> _ =>
             destruct b; [intros [= <-]; simpl; lia|]
         end.
  discriminate.
Qed.

(** [escapeHtml] works character by character: it distributes over
    concatenation, and its output is at least as long as the input and at
    most six times as long. *)
Theorem escapeHtml_distributes (a b : string) :
  escapeHtml (a +:+ b) = escapeHtml a +:+ escapeHtml b
  /\ String.length a <= String.length (escapeHtml a)
  /\ String.length (escapeHtml a) <= 6 * String.length a.
Proof.
  split; [apply escapeHtml_app|]. split; [apply escapeHtml_length|].
  induction a as [|c a IH]; [reflexivity|]. cbn [escapeHtml].
  destruct (ESCAPE_LOOKUP c) as [entity|] eqn:E.
  - pose proof (escape_entity_length c entity E). rewrite length_app_str.
    simpl String.length in *. lia.
  - simpl String.length in *. lia.
Qed.

Lemma escaped_head c :
  match ESCAPE_LOOKUP c with
  | Some entity => exists tail, entity = String "&" tail
  | None => c <> "&"%char
  end.
Proof.
  unfold ESCAPE_LOOKUP. destruct (Ascii.eqb c "&") eqn:E; [now eexists|].
  apply Ascii.eqb_neq in E.
  repeat match goal with
         | |- match (if ?b then _ else _) with _ => _ end =>
             destruct b; [now eexists|]
         end.
  exact E.
Qed.

Lemma entity_prefix_free c d (x y : string) ec ed :
  ESCAPE_LOOKUP c = Some ec -> ESCAPE_LOOKUP d = Some ed ->
  ec +:+ x = ed +:+ y -> c = d /\ x = y.
Proof.
  unfold ESCAPE_LOOKUP.
  destruct (Ascii.eqb c "&") eqn:C1; [apply Ascii.eqb_eq in C1; subst c|];
  [|destruct (Ascii.eqb c "<") eqn:C2; [apply Ascii.eqb_eq in C2; subst c|];
   [|destruct (Ascii.eqb c ">") eqn:C3; [apply Ascii.eqb_eq in C3; subst c|];
    [|destruct (Ascii.eqb c (ascii_of_N 34)) eqn:C4;
      [apply Ascii.eqb_eq in C4; subst c|];
     [|destruct (Ascii.eqb c "'") eqn:C5; [apply Ascii.eqb_eq in C5; subst c|];
      [|discriminate]]]]];
  intros [= <-];
  (destruct (Ascii.eqb d "&") eqn:D1; [apply Ascii.eqb_eq in D1; subst d|];
   [|destruct (Ascii.eqb d "<") eqn:D2; [apply Ascii.eqb_eq in D2; subst d|];
    [|destruct (Ascii.eqb d ">") eqn:D3; [apply Ascii.eqb_eq in D3; subst d|];
     [|destruct (Ascii.eqb d (ascii_of_N 34)) eqn:D4;
       [apply Ascii.eqb_eq in D4; subst d|];
      [|destruct (Ascii.eqb d "'") eqn:D5; [apply Ascii.eqb_eq in D5; subst d|];
       [|discriminate]]]]]);
  intros [= <-]; rewrite ?app_cons, ?app_nil; intros H;
  first [ discriminate H | injection H as ->; now split ].
Qed.

(** [escapeHtml] loses nothing: two inputs with the same escaped text are
    the same input. *)
Theorem escapeHtml_injective (x y : string) :
  escapeHtml x = escapeHtml y -> x = y.
Proof.
  revert y. induction x as [|c x IH]; intros [|d y]; cbn [escapeHtml].
  - reflexivity.
  - intros H. exfalso. pose proof (escaped_head d) as Hd.
    destruct (ESCAPE_LOOKUP d) as [ed|]; [destruct Hd as [t ->]|];
      rewrite ?app_cons in H; discriminate H.
  - intros H. exfalso. pose proof (escaped_head c) as Hc.
    destruct (ESCAPE_LOOKUP c) as [ec|]; [destruct Hc as [t ->]|];
      rewrite ?app_cons in H; discriminate H.
  - pose proof (escaped_head c) as Hc. pose proof (escaped_head d) as Hd.
    destruct (ESCAPE_LOOKUP c) as [ec|] eqn:Ec, (ESCAPE_LOOKUP d) as [ed|] eqn:Ed.
    + intros H. destruct (entity_prefix_free c d _ _ ec ed Ec Ed H) as [-> Hxy].
      f_equal. now apply IH.
    + destruct Hc as [t ->]. rewrite app_cons. intros [= <- _]. contradiction.
    + destruct Hd as [t ->]. rewrite app_cons. intros [= -> _]. contradiction.
    + intros [= -> H]. f_equal. now apply IH.
Qed.

Lemma escapeHtml_injective_witness :
  "a<b" = "a<b".
Proof. exact (escapeHtml_injective "a<b" "a<b" eq_refl). Defined.

(** ** The type filters of the feed *)

Lemma allowed_filter_kept items x :
  In x (List.filter
          (fun item => if nonEmpty item then JS.has ALLOWED_FEED_TYPES item else false)
          items) ->
  In x ALLOWED_FEED_TYPES.
Proof.
  intros H. apply filter_In in H as [_ H].
  destruct (nonEmpty x); [now apply has_In | discriminate H].
Qed.

Lemma allowed_filter_all items :
  NoDup items -> (forall x, In x items -> In x ALLOWED_FEED_TYPES) ->
  List.filter
    (fun item => if nonEmpty item then JS.has ALLOWED_FEED_TYPES item else false) items
  = items.
Proof.
  intros _ H. apply filter_all. intros x Hx. specialize (H x Hx).
  simpl in H. repeat (destruct H as [<-|H]; [reflexivity|]). contradiction.
Qed.

Lemma normalizeTypeFilters_cases value :
  normalizeTypeFilters value = DEFAULT_FEED_TYPES
  \/ normalizeTypeFilters value = ["all"]
  \/ (normalizeTypeFilters value <> []
      /\ NoDup (normalizeTypeFilters value)
      /\ (forall x, In x (normalizeTypeFilters value) -> In x ALLOWED_FEED_TYPES)
      /\ JS.has (normalizeTypeFilters value) "all" = false).
Proof.
  unfold normalizeTypeFilters.
  destruct (match value with
            | TypeUndefined => true
            | TypeOne item => negb (nonEmpty item)
            | TypeArray _ => false
            end); [now left|]. cbv zeta.
  set (normalized := List.filter _ _).
  destruct (Nat.eqb (length normalized) 0) eqn:Hlen; [now left|].
  destruct (JS.has (newSet normalized) "all") eqn:Hhas; [right; now left|].
  right. right. split; [|split; [apply newSet_NoDup|split; [|exact Hhas]]].
  - destruct normalized as [|x l] eqn:E; [discriminate Hlen|].
    intros Hnil. assert (Hin : In x (newSet (x :: l))) by (apply newSet_In; now left).
    rewrite Hnil in Hin. contradiction.
  - intros x Hx. apply (proj1 (newSet_In _ _)) in Hx.
    now apply allowed_filter_kept in Hx.
Qed.

Lemma normalizeTypeFilters_array_fixed r :
  r <> [] -> NoDup r -> (forall x, In x r -> In x ALLOWED_FEED_TYPES) ->
  JS.has r "all" = false ->
  normalizeTypeFilters (TypeArray r) = r.
Proof.
  intros Hne Hnd Hallowed Hhas. unfold normalizeTypeFilters. cbv zeta.
  rewrite (allowed_filter_all r Hnd Hallowed), (newSet_fixed r Hnd), Hhas.
  destruct r; [contradiction | reflexivity].
Qed.

(** [normalizeTypeFilters] always answers with a list that is not empty,
    has no filter twice, holds allowed filters only, and holds "all" only on
    its own; given its own answer as an array, it answers the same. *)
Theorem normalizeTypeFilters_normal_form (value : FeedTypeProp) :
  normalizeTypeFilters value <> []
  /\ NoDup (normalizeTypeFilters value)
  /\ (forall x, In x (normalizeTypeFilters value) -> In x ALLOWED_FEED_TYPES)
  /\ (In "all" (normalizeTypeFilters value) -> normalizeTypeFilters value = ["all"])
  /\ normalizeTypeFilters (TypeArray (normalizeTypeFilters value))
     = normalizeTypeFilters value.
Proof.
  destruct (normalizeTypeFilters_cases value) as [-> | [-> | (Hne & Hnd & Hal & Hhas)]].
  - split; [discriminate|]. split; [apply uniqueNames_NoDup; reflexivity|].
    split; [intros x; simpl; intuition|]. split; [|reflexivity].
    simpl. intros [H|[H|[]]]; discriminate H.
  - split; [discriminate|]. split; [apply NoDup_singleton|].
    split; [|split; reflexivity]. intros x [<-|[]]. simpl. intuition.
  - split; [exact Hne|]. split; [exact Hnd|]. split; [exact Hal|]. split.
    + intros Hin. apply has_In in Hin. congruence.
    + now apply normalizeTypeFilters_array_fixed.
Qed.

Example type_filters_examples :
  List.map normalizeTypeFilters
    [ TypeUndefined; TypeOne "archived"; TypeOne "bogus"; TypeArray [];
      TypeArray ["read"; "bogus"; "read"]; TypeArray ["unread"; "all"; "read"] ]
  = [ ["unread"; "read"]; ["archived"]; ["unread"; "read"]; ["unread"; "read"];
      ["read"]; ["all"] ].
Proof. reflexivity. Qed.

(** ** The message list of the feed *)

Section FeedMessagesFacts.

Variable Message : Type.
Variable id : Message -> string.
Variable createdAt : Message -> string.
Variable getTime : string -> Z.

Local Abbreviation time m := (getTime (createdAt m)).
Local Abbreviation newer := (newestFirst Message createdAt getTime).
Local Abbreviation step := (setById Message id).
Local Abbreviation pairs := (entriesOf Message id).

Lemma mapGet_mapSet l k m k' :
  mapGet Message (mapSet Message l k m) k'
  = if String.eqb k k' then Some m else mapGet Message l k'.
Proof.
  induction l as [|[k0 m0] l IH]; simpl.
  - reflexivity.
  - destruct (String.eqb k0 k) eqn:E0; simpl.
    + apply String.eqb_eq in E0. subst k0. now destruct (String.eqb k k').
    + destruct (String.eqb k0 k') eqn:E1; [|exact IH].
      destruct (String.eqb k k') eqn:E2; [|reflexivity].
      apply String.eqb_eq in E1, E2. subst. now rewrite String.eqb_refl in E0.
Qed.

Lemma mapSet_keys l k m :
  List.map fst (mapSet Message l k m)
  = if JS.has (List.map fst l) k then List.map fst l else List.map fst l ++ [k].
Proof.
  induction l as [|[k0 m0] l IH]; [reflexivity|].
  simpl. unfold JS.has in *. simpl. rewrite (String.eqb_sym k k0).
  destruct (String.eqb k0 k) eqn:E; simpl; [reflexivity|].
  rewrite IH. now destruct (existsb _ _).
Qed.

Lemma mapSet_keys_NoDup l k m :
  NoDup (List.map fst l) -> NoDup (List.map fst (mapSet Message l k m)).
Proof.
  intros Hn. rewrite mapSet_keys. destruct (JS.has _ k) eqn:Hk; [exact Hn|].
  apply has_notIn in Hk. apply NoDup_app. split; [exact Hn|].
  split; [|apply NoDup_singleton].
  intros x Hx Hy. apply list_elem_of_In in Hx, Hy. destruct Hy as [<-|[]].
  contradiction.
Qed.

Lemma mapSet_In l k m k' m' :
  In (k', m') (mapSet Message l k m) -> (k' = k /\ m' = m) \/ In (k', m') l.
Proof.
  induction l as [|[k0 m0] l IH]; simpl.
  - intros [[= <- <-]|[]]. now left.
  - destruct (String.eqb k0 k) eqn:E; simpl.
    + apply String.eqb_eq in E. subst k0.
      intros [[= <- <-]|H]; [now left | right; now right].
    + intros [H|H]; [right; now left|].
      destruct (IH H) as [?|?]; [now left | right; now right].
Qed.

(** The map built from the items: keys without repetition, each value under
    its own id, and under a key the last item that has it. *)
Lemma dedupe_invariant items acc :
  NoDup (List.map fst acc) ->
  (forall k m, In (k, m) acc -> id m = k) ->
  NoDup (List.map fst (fold_left step items acc))
  /\ (forall k m, In (k, m) (fold_left step items acc) -> id m = k)
  /\ (forall k, mapGet Message (fold_left step items acc) k
                = match lastWithId Message id items k with
                  | Some m => Some m
                  | None => mapGet Message acc k
                  end).
Proof.
  revert acc. induction items as [|m items IH]; intros acc Hn Hk.
  - now repeat split.
  - cbn [fold_left lastWithId].
    destruct (IH (step acc m)) as (H1 & H2 & H3).
    + now apply mapSet_keys_NoDup.
    + intros k' m' Hin. apply mapSet_In in Hin as [[-> ->]|Hin];
        [reflexivity | now apply Hk].
    + split; [exact H1|]. split; [exact H2|]. intros k. rewrite H3.
      destruct (lastWithId Message id items k); [reflexivity|].
      unfold setById. rewrite mapGet_mapSet. now destruct (String.eqb (id m) k).
Qed.

Lemma mapGet_In l k m : mapGet Message l k = Some m -> In (k, m) l.
Proof.
  induction l as [|[k0 m0] l IH]; simpl; [discriminate|].
  destruct (String.eqb k0 k) eqn:E.
  - apply String.eqb_eq in E. subst k0. intros [= ->]. now left.
  - intros H. right. now apply IH.
Qed.

Lemma In_mapGet l k m :
  NoDup (List.map fst l) -> In (k, m) l -> mapGet Message l k = Some m.
Proof.
  induction l as [|[k0 m0] l IH]; simpl; [contradiction|].
  intros Hn Hin. apply NoDup_cons in Hn as [Hk Hn]. rewrite list_elem_of_In in Hk.
  destruct Hin as [[= -> ->]|Hin]; [now rewrite String.eqb_refl|].
  destruct (String.eqb k0 k) eqn:E; [|now apply IH].
  apply String.eqb_eq in E. subst k0. exfalso. apply Hk. apply in_map_iff.
  now exists (k, m).
Qed.

Lemma insertSorted_perm compare m l :
  Permutation (insertSorted Message compare m l) (m :: l).
Proof.
  induction l as [|x l IH]; simpl; [reflexivity|].
  destruct (compare x m <? 0)%Z; [|reflexivity].
  rewrite IH. apply perm_swap.
Qed.

Lemma sortStable_perm compare l : Permutation (sortStable Message compare l) l.
Proof.
  induction l as [|m l IH]; simpl; [reflexivity|].
  rewrite insertSorted_perm. now constructor.
Qed.

Lemma insertSorted_sorted m l :
  StronglySorted newer l ->
  StronglySorted newer
    (insertSorted Message (compareNewestFirst Message createdAt getTime) m l).
Proof.
  induction l as [|x l IH]; intros Hs; simpl.
  - constructor; constructor.
  - apply StronglySorted_inv in Hs as [Hl Hx].
    unfold compareNewestFirst at 1.
    destruct (time m - time x <? 0)%Z eqn:E.
    + apply Z.ltb_lt in E. constructor; [now apply IH|].
      apply (Permutation_Forall (symmetry (insertSorted_perm _ m l))).
      constructor; [unfold newestFirst; lia | exact Hx].
    + apply Z.ltb_ge in E. constructor; [now constructor|].
      constructor; [unfold newestFirst; lia|].
      eapply Forall_impl; [exact Hx|]. unfold newestFirst. intros y Hy. lia.
Qed.

Lemma sortStable_sorted l :
  StronglySorted newer
    (sortStable Message (compareNewestFirst Message createdAt getTime) l).
Proof.
  induction l as [|m l IH]; simpl; [constructor | now apply insertSorted_sorted].
Qed.

Lemma sortStable_fixed l :
  StronglySorted newer l ->
  sortStable Message (compareNewestFirst Message createdAt getTime) l = l.
Proof.
  induction l as [|m l IH]; intros Hs; [reflexivity|].
  apply StronglySorted_inv in Hs as [Hl Hm]. simpl. rewrite (IH Hl).
  destruct l as [|x l]; [reflexivity|]. simpl.
  unfold compareNewestFirst.
  apply Forall_inv in Hm. unfold newestFirst in Hm.
  destruct (time m - time x <? 0)%Z eqn:E; [|reflexivity].
  apply Z.ltb_lt in E. lia.
Qed.

Lemma dedupe_values items :
  NoDup (List.map fst (fold_left step items []))
  /\ List.map id (List.map snd (fold_left step items []))
     = List.map fst (fold_left step items [])
  /\ (forall m, In m (List.map snd (fold_left step items []))
                <-> lastWithId Message id items (id m) = Some m).
Proof.
  destruct (dedupe_invariant items []) as (H1 & H2 & H3);
    [apply NoDup_nil_2 | intros k m [] |].
  split; [exact H1|]. split.
  - rewrite List.map_map. apply map_ext_in. intros [k m] Hin. simpl. now apply H2.
  - intros m. rewrite in_map_iff. split.
    + intros ([k m'] & E & Hin). simpl in E. subst m'.
      pose proof (H2 k m Hin) as <-.
      pose proof (In_mapGet _ _ _ H1 Hin) as Hg. rewrite H3 in Hg.
      destruct (lastWithId Message id items (id m)); [exact Hg | discriminate Hg].
    + intros Hl. exists (id m, m). split; [reflexivity|].
      apply mapGet_In. rewrite H3, Hl. reflexivity.
Qed.

Lemma in_sortAndDedupe items m :
  In m (sortAndDedupeMessages Message id createdAt getTime items)
  <-> lastWithId Message id items (id m) = Some m.
Proof.
  unfold sortAndDedupeMessages. cbv zeta. change (fun byId message => mapSet Message byId (id message) message) with step.
  destruct (dedupe_values items) as (_ & _ & H). rewrite <- H.
  split; apply Permutation_in; [|symmetry]; apply sortStable_perm.
Qed.

Lemma lastWithId_id items k m :
  lastWithId Message id items k = Some m -> id m = k /\ In m items.
Proof.
  induction items as [|x items IH]; simpl; [discriminate|].
  destruct (lastWithId Message id items k) as [y|].
  - intros [= <-]. destruct (IH eq_refl) as [? ?]. split; [assumption | now right].
  - destruct (String.eqb (id x) k) eqn:E; [|discriminate].
    intros [= <-]. apply String.eqb_eq in E. split; [exact E | now left].
Qed.

Lemma lastWithId_some items m :
  In m items -> exists m', lastWithId Message id items (id m) = Some m'.
Proof.
  induction items as [|x items IH]; simpl; [contradiction|].
  intros [->|Hin].
  - destruct (lastWithId Message id items (id m)) as [y|]; [now exists y|].
    rewrite String.eqb_refl. now exists m.
  - destruct (IH Hin) as [m' ->]. now exists m'.
Qed.

Lemma lastWithId_app prev next k :
  lastWithId Message id (prev ++ next) k
  = match lastWithId Message id next k with
    | Some m => Some m
    | None => lastWithId Message id prev k
    end.
Proof.
  induction prev as [|x prev IH]; simpl.
  - now destruct (lastWithId Message id next k).
  - rewrite IH. now destruct (lastWithId Message id next k).
Qed.

(** [sortAndDedupeMessages], for dates that parse: the result is ordered
    from the newest to the oldest, holds each id once, and holds a message
    exactly when it is the last of the input with its id; so every id of the
    input is still there. *)
Theorem sortAndDedupeMessages_result (items : list Message) (m : Message) :
  StronglySorted (newestFirst Message createdAt getTime)
    (sortAndDedupeMessages Message id createdAt getTime items)
  /\ NoDup (List.map id (sortAndDedupeMessages Message id createdAt getTime items))
  /\ (In m (sortAndDedupeMessages Message id createdAt getTime items)
      <-> lastWithId Message id items (id m) = Some m)
  /\ (In m items ->
      exists m', In m' (sortAndDedupeMessages Message id createdAt getTime items)
                 /\ id m' = id m).
Proof.
  split; [apply sortStable_sorted|]. split; [|split; [apply in_sortAndDedupe|]].
  - unfold sortAndDedupeMessages. cbv zeta. change (fun byId message => mapSet Message byId (id message) message) with step.
    destruct (dedupe_values items) as (Hn & Hk & _).
    rewrite sortStable_perm, Hk. exact Hn.
  - intros Hin. destruct (lastWithId_some items m Hin) as [m' Hm'].
    destruct (lastWithId_id items _ m' Hm') as [Hid _].
    exists m'. split; [|exact Hid]. apply in_sortAndDedupe. now rewrite Hid.
Qed.

(** When a page is added to the list, a message of the page takes the
    place of the one of the list that has its id. *)
Theorem merged_page_replaces_by_id (prev next : list Message) (m : Message) :
  In m (sortAndDedupeMessages Message id createdAt getTime (prev ++ next))
  <-> lastWithId Message id next (id m) = Some m
      \/ (lastWithId Message id next (id m) = None
          /\ lastWithId Message id prev (id m) = Some m).
Proof.
  rewrite in_sortAndDedupe, lastWithId_app.
  destruct (lastWithId Message id next (id m)) as [x|].
  - split; [now left | intros [H|[H _]]; [exact H | discriminate H]].
  - split; [intros H; right; now split | intros [H|[_ H]]; [discriminate H | exact H]].
Qed.

(** For dates that parse, [sortAndDedupeMessages] run on its own result
    changes nothing. *)
Theorem sortAndDedupeMessages_idempotent (items : list Message) :
  sortAndDedupeMessages Message id createdAt getTime
    (sortAndDedupeMessages Message id createdAt getTime items)
  = sortAndDedupeMessages Message id createdAt getTime items.
Proof.
  assert (Hfresh : forall l acc,
             NoDup (List.map id (acc ++ l)) ->
             fold_left step l (pairs acc) = pairs (acc ++ l)).
  { induction l as [|x l IH]; intros acc Hn.
    - now rewrite app_nil_r.
    - cbn [fold_left].
      assert (Hx : step (pairs acc) x = pairs (acc ++ [x])).
      { unfold setById, entriesOf. rewrite List.map_app. simpl.
        assert (Hnot : ~ In (id x) (List.map id acc)).
        { rewrite List.map_app in Hn. apply NoDup_app in Hn as (_ & Hd & _).
          intros Hin. apply (Hd (id x)); [now apply list_elem_of_In|].
          apply list_elem_of_In. now left. }
        clear Hn IH. induction acc as [|a acc IHa]; [reflexivity|].
        simpl. destruct (String.eqb (id a) (id x)) eqn:E.
        - apply String.eqb_eq in E. exfalso. apply Hnot. now left.
        - f_equal. apply IHa. intros H. apply Hnot. now right. }
      rewrite Hx, IH; rewrite <- app_assoc; [reflexivity | exact Hn]. }
  set (out := sortAndDedupeMessages Message id createdAt getTime items).
  assert (Hn : NoDup (List.map id out)).
  { unfold out, sortAndDedupeMessages. cbv zeta. change (fun byId message => mapSet Message byId (id message) message) with step.
    destruct (dedupe_values items) as (Hn & Hk & _).
    rewrite sortStable_perm, Hk. exact Hn. }
  unfold sortAndDedupeMessages at 1. cbv zeta. change (fun byId message => mapSet Message byId (id message) message) with step.
  change (@nil (string * Message)) with (pairs []).
  rewrite (Hfresh out [] Hn). cbn [app]. unfold entriesOf.
  rewrite List.map_map. cbn [snd]. rewrite List.map_id.
  apply sortStable_fixed. apply sortStable_sorted.
Qed.

End FeedMessagesFacts.

Example sorted_deduped_example :
  sortAndDedupeMessages (string * string * string) (fun m => fst (fst m))
    (fun m => snd (fst m)) example_getTime example_messages
  = [ ("m2", "2024-01-17", "second"); ("m1", "2024-01-16", "first, edited") ].
Proof. reflexivity. Qed.

Lemma sortAndDedupeMessages_result_witness :
  exists m',
    In m' (sortAndDedupeMessages (string * string * string) (fun m => fst (fst m))
             (fun m => snd (fst m)) example_getTime example_messages)
    /\ fst (fst m') = "m1".
Proof.
  apply (proj2 (proj2 (proj2
    (sortAndDedupeMessages_result (string * string * string) (fun m => fst (fst m))
       (fun m => snd (fst m)) example_getTime example_messages
       ("m1", "2024-01-15", "first"))))).
  left. reflexivity.
Defined.
